(** * AstroPix configuration model: registers, serializer, pixel algebra, run control

    A shallow embedding of [modules/asic.py] (class [Asic]) and of the
    run-control methods of [astropix.py] (class [astropixRun]), with the
    properties of the configuration model stated and proved over it.

    Python integers are unbounded: they are [Z], and [&], [|], [~], [<<] are
    [Z.land], [Z.lor], [Z.lnot], [Z.shiftl].  A Python [dict] keeps its keys
    in insertion order and the serializer walks that order, so a dict is an
    association list.  Methods mutate [self] and may raise: they are
    functions from the object to an outcome and the object as the call left
    it. *)

From Stdlib Require Import ZArith List String Ascii Bool Lia.
From Stdlib Require Import DecimalString DecimalZ.
Import ListNotations.
Open Scope string_scope.
Open Scope list_scope.
Open Scope Z_scope.

(** ** Python runtime: exceptions, outcomes, stateful calls *)

Inductive exn : Type :=
| TypeError
| KeyError (key : string)
| ValueError
| AttributeError (attr : string)
| RuntimeError (msg : string).

Inductive outcome (A : Type) : Type :=
| Returns (a : A)
| Raises (e : exn).
Arguments Returns {A} a.
Arguments Raises {A} e.

(** A call on an object of type [S]: what it returns or raises, and the
    object afterwards (mutations made before a [raise] stay). *)
Definition M (S A : Type) : Type := S -> outcome A * S.

Definition ret {S A} (a : A) : M S A := fun s => (Returns a, s).

Definition raise {S A} (e : exn) : M S A := fun s => (Raises e, s).

Definition bind {S A B} (m : M S A) (k : A -> M S B) : M S B :=
  fun s =>
    match m s with
    | (Returns a, s') => k a s'
    | (Raises e, s') => (Raises e, s')
    end.

Definition gets {S A} (f : S -> A) : M S A := fun s => (Returns (f s), s).

Definition modify {S} (f : S -> S) : M S unit := fun s => (Returns tt, f s).

Definition lift_outcome {S A} (o : outcome A) : M S A := fun s => (o, s).

Notation "x <- m ;; k" := (bind m (fun x => k))
  (at level 61, m at next level, right associativity).
Notation "m ;; k" := (bind m (fun _ => k))
  (at level 61, right associativity).

(** [for a in l: acc = body(acc, a)] *)
Fixpoint foldM {S A B} (body : B -> A -> M S B) (l : list A) (acc : B) : M S B :=
  match l with
  | [] => ret acc
  | a :: l' => acc' <- body acc a ;; foldM body l' acc'
  end.

(** [for a in l: body(a)] *)
Definition for_each {S A} (l : list A) (body : A -> M S unit) : M S unit :=
  foldM (fun _ a => body a) l tt.

(** [range(n)]: empty when [n <= 0]. *)
Definition range (n : Z) : list Z := map Z.of_nat (seq 0 (Z.to_nat n)).

(** [a << n]: a negative shift count is a [ValueError]. *)
Definition py_shiftl (a n : Z) : outcome Z :=
  if n <? 0 then Raises ValueError else Returns (Z.shiftl a n).

(** [f'{n}'] for an integer. *)
Definition str_of_int (n : Z) : string := NilEmpty.string_of_int (Z.to_int n).

(** [repr(s)] for a string, a Coq string standing for the Python string
    whose code points are its characters.  The quote is the double one when
    the string holds single quotes and no double quote, the single one
    otherwise; the quote and the backslash are escaped, tab, newline and
    return are written as letters, the other characters that are not
    printable (below space, 0x7f to 0xa0, 0xad) as [\xhh]. *)
Definition squote : ascii := ascii_of_nat 39.
Definition dquote : ascii := ascii_of_nat 34.
Definition backslash : ascii := ascii_of_nat 92.

Fixpoint str_contains (c : ascii) (s : string) : bool :=
  match s with
  | EmptyString => false
  | String c' s' => Ascii.eqb c c' || str_contains c s'
  end.

Definition hex_digit (n : nat) : ascii :=
  nth n (list_ascii_of_string "0123456789abcdef") "0"%char.

Definition py_isprintable (c : ascii) : bool :=
  let n := nat_of_ascii c in
  ((32 <=? n) && (n <? 127) || (161 <=? n) && negb (n =? 173))%nat.

Definition repr_char (quote c : ascii) : string :=
  if Ascii.eqb c quote || Ascii.eqb c backslash then String backslash (String c "")
  else if Ascii.eqb c (ascii_of_nat 9) then String backslash "t"
  else if Ascii.eqb c (ascii_of_nat 10) then String backslash "n"
  else if Ascii.eqb c (ascii_of_nat 13) then String backslash "r"
  else if py_isprintable c then String c ""
  else String backslash
         (String "x" (String (hex_digit (nat_of_ascii c / 16))
                             (String (hex_digit (nat_of_ascii c mod 16)) ""))).

Fixpoint repr_chars (quote : ascii) (s : string) : string :=
  match s with
  | EmptyString => EmptyString
  | String c s' => (repr_char quote c ++ repr_chars quote s')%string
  end.

Definition repr_str (s : string) : string :=
  let quote := if str_contains squote s && negb (str_contains dquote s)
               then dquote else squote in
  String quote (repr_chars quote s ++ String quote "")%string.

(** ** Python dicts with string keys, in insertion order *)

Definition dict (V : Type) : Type := list (string * V).

(** [repr(d)] for a dict from strings to integers: what an f-string writes
    for [{d}]. *)
Fixpoint repr_items (d : dict Z) : string :=
  match d with
  | [] => ""
  | (k, v) :: rest =>
      (repr_str k ++ ": " ++ str_of_int v
       ++ match rest with [] => "" | _ => ", " ++ repr_items rest end)%string
  end.

Definition repr_dict (d : dict Z) : string := ("{" ++ repr_items d ++ "}")%string.

(** [d.get(k)] *)
Fixpoint dict_get {V} (k : string) (d : dict V) : option V :=
  match d with
  | [] => None
  | (k', v) :: d' => if String.eqb k k' then Some v else dict_get k d'
  end.

(** [k in d] *)
Definition dict_mem {V} (k : string) (d : dict V) : bool :=
  match dict_get k d with Some _ => true | None => false end.

(** [d[k]] *)
Definition subscript {V} (k : string) (d : dict V) : outcome V :=
  match dict_get k d with
  | Some v => Returns v
  | None => Raises (KeyError k)
  end.

(** The object stored under [k] mutated in place by [g]; the key keeps its
    position and the other entries are untouched. *)
Fixpoint dict_adjust {V} (g : V -> V) (k : string) (d : dict V) : dict V :=
  match d with
  | [] => []
  | (k', v) :: d' =>
      if String.eqb k k' then (k', g v) :: d' else (k', v) :: dict_adjust g k d'
  end.

(** ** The bitstring library: [BitArray]

    [BitArray(uint=value, length=n)] is the [n]-bit big-endian encoding of
    [value]; the library raises [CreationError], a [ValueError], when the
    length is not positive, the value is negative or the value needs more
    than [n] bits.  [BitArray.uint] reads the bits back as an unsigned
    big-endian integer. *)

Definition BitArray : Type := list bool.

Fixpoint uint_bits (n : nat) (v : Z) : BitArray :=
  match n with
  | O => []
  | S k => Z.testbit v (Z.of_nat k) :: uint_bits k v
  end.

Definition BitArray_of_uint (value length : Z) : outcome BitArray :=
  if length <=? 0 then Raises ValueError
  else if value <? 0 then Raises ValueError
  else if 2 ^ length <=? value then Raises ValueError
  else Returns (uint_bits (Z.to_nat length) value).

Definition uint (b : BitArray) : Z :=
  fold_left (fun acc bit => 2 * acc + Z.b2z bit) b 0.

(** ** The register model of [modules/asic.py] *)

(** A field is the two-element list [[width, value]]: index 0 and index 1. *)
Record Field : Type := mkField { width : Z; value : Z }.

Definition set_value (v : Z) (f : Field) : Field := mkField (width f) v.

Definition Block : Type := dict Field.
Definition ChipConfig : Type := dict Block.

Inductive level : Type := INFO | WARNING | ERROR.

(** A line written by [print]. *)
Inductive line : Type :=
| AllowedValues (nbits : Z).   (* f'Allowed Values 0 - {2**nbits-1}' *)

(** The [Asic] object, together with what its methods emitted through the
    module's [logger] and on standard output (latest first). *)
Record Asic : Type := mkAsic {
  _num_rows : Z;
  _num_cols : Z;
  asic_config : option ChipConfig;      (* [None] until a config is loaded *)
  logger : list (level * string);
  stdout : list line
}.

Definition num_rows : M Asic Z := gets _num_rows.
Definition num_cols : M Asic Z := gets _num_cols.

Definition with_config (c : ChipConfig) (self : Asic) : Asic :=
  mkAsic (_num_rows self) (_num_cols self) (Some c) (logger self) (stdout self).

Definition print (l : line) : M Asic unit :=
  modify (fun self =>
    mkAsic (_num_rows self) (_num_cols self) (asic_config self) (logger self)
           (l :: stdout self)).

(** [Asic.__init__] *)
Definition Asic_init : Asic := mkAsic 35 35 None [] [].

(** [self.asic_config[name]]: subscripting [None] is a [TypeError]. *)
Definition config_block (name : string) : M Asic Block :=
  fun self =>
    match asic_config self with
    | None => (Raises TypeError, self)
    | Some cfg => (subscript name cfg, self)
    end.

(** The object once index 1 of the field [k] of block [blk] holds [v]. *)
Definition assign_value (blk k : string) (v : Z) (self : Asic) : Asic :=
  match asic_config self with
  | Some cfg => with_config (dict_adjust (dict_adjust (set_value v) k) blk cfg) self
  | None => self
  end.

(** [self.asic_config[blk][k][1] = v], the right-hand side being evaluated
    already: the two subscripts may raise, then the item is assigned. *)
Definition store_value (blk k : string) (v : Z) : M Asic unit :=
  b <- config_block blk ;;
  _ <- lift_outcome (subscript k b) ;;
  modify (assign_value blk k v).

(** [self.asic_config['recconfig'][k][1]] *)
Definition recconfig_item (k : string) : M Asic Z :=
  b <- config_block "recconfig" ;;
  f <- lift_outcome (subscript k b) ;;
  ret (value f).

(** [self.asic_config['recconfig'].get(k, 0b001_11111_..._11110)[1]]: when the
    key is absent [get] answers the integer default, and subscripting an
    integer is a [TypeError]. *)
Definition recconfig_get (k : string) : M Asic Z :=
  b <- config_block "recconfig" ;;
  match dict_get k b with
  | Some f => ret (value f)
  | None => raise TypeError
  end.

(** [f'col{i}'] *)
Definition col_key (i : Z) : string := ("col" ++ str_of_int i)%string.

(** The bit patterns of a column word, as the source writes them. *)
Definition RECCONFIG_DEFAULT : Z := 0xFFFFFFFFE.   (* 0b001_11111_11111_11111_11111_11111_11111_11110 *)
Definition INJ_ROW_BIT : Z := 0x1.                 (* 0b000_00000_00000_00000_00000_00000_00000_00001 *)
Definition INJ_COL_BIT : Z := 0x1000000000.        (* 0b010_00000_00000_00000_00000_00000_00000_00000 *)
Definition AMPOUT_BIT : Z := 0x2000000000.         (* 0b100_00000_00000_00000_00000_00000_00000_00000 *)
Definition AMPOUT_OFF : Z := 0x1FFFFFFFFF.         (* 0b011_11111_11111_11111_11111_11111_11111_11111 *)
Definition INJ_ROW_OFF : Z := 0x3FFFFFFFFE.        (* 0b111_11111_11111_11111_11111_11111_11111_11110 *)
Definition INJ_COL_OFF : Z := 0x2FFFFFFFFF.        (* 0b101_11111_11111_11111_11111_11111_11111_11111 *)

Definition enable_inj_row (row : Z) : M Asic unit :=
  nr <- num_rows ;;
  if row <? nr then
    w <- recconfig_get (col_key row) ;;
    store_value "recconfig" (col_key row) (Z.lor w INJ_ROW_BIT)
  else ret tt.

Definition enable_inj_col (col : Z) : M Asic unit :=
  nc <- num_cols ;;
  if col <? nc then
    w <- recconfig_get (col_key col) ;;
    store_value "recconfig" (col_key col) (Z.lor w INJ_COL_BIT)
  else ret tt.

(** No bound check on [col]: the loop clears the mux bit of the columns of
    the geometry, then the bit is set in [col]'s word. *)
Definition enable_ampout_col (col : Z) : M Asic unit :=
  nc <- num_cols ;;
  for_each (range nc) (fun i =>
    w <- recconfig_item (col_key i) ;;
    store_value "recconfig" (col_key i) (Z.land w AMPOUT_OFF)) ;;
  w <- recconfig_item (col_key col) ;;
  store_value "recconfig" (col_key col) (Z.lor w AMPOUT_BIT).

Definition enable_pixel (col row : Z) : M Asic unit :=
  nr <- num_rows ;;
  nc <- num_cols ;;
  if (row <? nr) && (col <? nc) then
    w <- recconfig_get (col_key col) ;;
    m <- lift_outcome (py_shiftl 2 row) ;;
    store_value "recconfig" (col_key col) (Z.land w (Z.lnot m))
  else ret tt.

Definition disable_pixel (col row : Z) : M Asic unit :=
  nr <- num_rows ;;
  nc <- num_cols ;;
  if (row <? nr) && (col <? nc) then
    w <- recconfig_get (col_key col) ;;
    m <- lift_outcome (py_shiftl 2 row) ;;
    store_value "recconfig" (col_key col) (Z.lor w m)
  else ret tt.

Definition disable_inj_row (row : Z) : M Asic unit :=
  nr <- num_rows ;;
  if row <? nr then
    w <- recconfig_get (col_key row) ;;
    store_value "recconfig" (col_key row) (Z.land w INJ_ROW_OFF)
  else ret tt.

Definition disable_inj_col (col : Z) : M Asic unit :=
  nc <- num_cols ;;
  if col <? nc then
    w <- recconfig_get (col_key col) ;;
    store_value "recconfig" (col_key col) (Z.land w INJ_COL_OFF)
  else ret tt.

(** Only the row is checked; past the check there is no [else], so an
    out-of-range row falls off the end of the function: Python's [None]. *)
Definition get_pixel (col row : Z) : M Asic (option bool) :=
  nr <- num_rows ;;
  if row <? nr then
    w <- recconfig_get (col_key col) ;;
    m <- lift_outcome (py_shiftl 1 (row + 1)) ;;
    if negb (Z.land w m =? 0) then ret (Some false) else ret (Some true)
  else ret None.

Definition reset_recconfig : M Asic unit :=
  b <- config_block "recconfig" ;;
  for_each (map fst b) (fun key => store_value "recconfig" key RECCONFIG_DEFAULT).

(** [__int2nbit]: the library's [ValueError] is caught, a line is printed and
    the function ends without a [return]: it answers [None]. *)
Definition __int2nbit (value nbits : Z) : M Asic (option BitArray) :=
  match BitArray_of_uint value nbits with
  | Returns b => ret (Some b)
  | Raises ValueError => print (AllowedValues nbits) ;; ret None
  | Raises e => raise e
  end.

Section Serializer.

(** [bitvector.append(None)]: what the library does with it depends on its
    version (older ones append nothing, newer ones raise [TypeError]), so
    it is left open. *)
Variable append_None : BitArray -> outcome BitArray.

(** [bitvector.append(x)] *)
Definition append (bitvector : BitArray) (x : option BitArray) : outcome BitArray :=
  match x with
  | Some b => Returns (bitvector ++ b)
  | None => append_None bitvector
  end.

(** [for key in self.asic_config: for values in self.asic_config[key].values()]
    walks the entries of the config and of each block in insertion order. *)
Definition gen_asic_vector (msbfirst : bool) : M Asic BitArray :=
  cfg <- (fun self => match asic_config self with
                      | Some cfg => (Returns cfg, self)
                      | None => (Raises TypeError, self)
                      end) ;;
  bitvector <- foldM (fun bitvector (blk : string * Block) =>
                 foldM (fun bitvector (values : string * Field) =>
                   x <- __int2nbit (value (snd values)) (width (snd values)) ;;
                   lift_outcome (append bitvector x))
                 (snd blk) bitvector)
               cfg [] ;;
  ret (if negb msbfirst then rev bitvector else bitvector).

End Serializer.

(** ** Run control: [astropix.py] *)

(** The calls made on the FPGA board object [self.nexys]. *)
Inductive nexys_call : Type :=
| autoopen
| write_register (register value : Z) (flush : bool)
| read_register (register : Z)
| spi_reset_fpga_readout
| sr_readback_reset
| chip_reset
| write (asicbits : BitArray).

(** The [astropixRun] object.  [asic] is absent until [asic_init] creates it;
    [nexys] is the record of the calls made on the board and [run_log] of what
    went through the module's [logger], both latest first. *)
Record astropixRun : Type := mkRun {
  _asic_start : bool;
  asic : option Asic;
  injection_col : option Z;
  injection_row : option Z;
  chipversion : Z;
  nexys : list nexys_call;
  run_log : list (level * string)
}.

Definition set_asic_start (b : bool) (self : astropixRun) : astropixRun :=
  mkRun b (asic self) (injection_col self) (injection_row self)
        (chipversion self) (nexys self) (run_log self).

Definition set_asic (a : option Asic) (self : astropixRun) : astropixRun :=
  mkRun (_asic_start self) a (injection_col self) (injection_row self)
        (chipversion self) (nexys self) (run_log self).

Definition set_nexys (t : list nexys_call) (self : astropixRun) : astropixRun :=
  mkRun (_asic_start self) (asic self) (injection_col self) (injection_row self)
        (chipversion self) t (run_log self).

Definition log (lv : level) (msg : string) : M astropixRun unit :=
  modify (fun self =>
    mkRun (_asic_start self) (asic self) (injection_col self) (injection_row self)
          (chipversion self) (nexys self) ((lv, msg) :: run_log self)).

(** A method of [self.asic] called from the run object. *)
Definition on_asic {A} (m : M Asic A) : M astropixRun A :=
  fun self =>
    match asic self with
    | None => (Raises (AttributeError "asic"), self)
    | Some a => let (o, a') := m a in (o, set_asic (Some a') self)
    end.

(** [try: body except Exception: handler] *)
Definition try_except {S A} (body : M S A) (handler : exn -> M S A) : M S A :=
  fun s =>
    match body s with
    | (Returns a, s') => (Returns a, s')
    | (Raises e, s') => handler e s'
    end.

Section RunControl.

Variable append_None : BitArray -> outcome BitArray.

(** The board: what a call answers (the bytes read, if any) or raises,
    given the calls made before it. *)
Variable board : list nexys_call -> nexys_call -> outcome (list Byte.byte).

Definition nexys_do (c : nexys_call) : M astropixRun (list Byte.byte) :=
  fun self => (board (nexys self) c, set_nexys (c :: nexys self) self).

(** Modelled from the spec: [Asic.asic_update] of [core/asic.py], which is
    not among the sources.  It is the transmission half of the spec's push:
    serialize the current ChipConfig in the default bit order and hand the
    bits to the transport, as [update_asic] of [modules/asic.py] does with
    [gen_asic_vector()]. *)
Definition Asic_asic_update : M astropixRun unit :=
  asicbits <- on_asic (gen_asic_vector append_None false) ;;
  nexys_do (write asicbits) ;;
  ret tt.

(** [astropixRun.asic_update] *)
Definition asic_update : M astropixRun unit :=
  nexys_do chip_reset ;;
  Asic_asic_update.

(** [for key in cfg: self.asic.asic_config[blk][key][1] = cfg[key]], skipped
    when [cfg is None]. *)
Definition write_overrides (blk : string) (cfg : option (dict Z)) : M astropixRun unit :=
  match cfg with
  | Some d => for_each d (fun kv => on_asic (store_value blk (fst kv) (snd kv)))
  | None => ret tt
  end.

(** The [else] belongs to the test of [vdac_cfg] alone: without a voltage-DAC
    mapping the method logs and returns before [self.asic_update()]. *)
Definition update_asic_config (bias_cfg idac_cfg vdac_cfg : option (dict Z))
  : M astropixRun unit :=
  started <- gets _asic_start ;;
  if (started : bool) then
    write_overrides "biasconfig" bias_cfg ;;
    write_overrides "idacs" idac_cfg ;;
    match vdac_cfg with
    | Some _ =>
        write_overrides "vdacs" vdac_cfg ;;
        asic_update
    | None =>
        log INFO "update_asic_config() got no arguments, nothing to do."
    end
  else raise (RuntimeError "Asic has not been initalized").

(** [f"Sent bad DAC value {dac_setup} - not a DAC setting. Aborting DAC update"] *)
Definition bad_dac_msg (dac_setup : dict Z) : string :=
  ("Sent bad DAC value " ++ repr_dict dac_setup
   ++ " - not a DAC setting. Aborting DAC update")%string.

(** The loop of [asic_init] that sorts [dac_setup] into [idac_setup] and
    [vdac_setup], over the keys [keys] still to be visited; each assignment
    builds a fresh one-entry dict.  [None] is the [return] of the last
    branch, which leaves [asic_init]; its warning shows the whole
    [dac_setup]. *)
Fixpoint sort_dac_loop (dac_setup keys : dict Z) (idac_setup vdac_setup : option (dict Z))
  : M astropixRun (option (option (dict Z) * option (dict Z))) :=
  match keys with
  | [] => ret (Some (idac_setup, vdac_setup))
  | (k, v) :: rest =>
      idacs <- on_asic (config_block "idacs") ;;
      if dict_mem k idacs then sort_dac_loop dac_setup rest (Some [(k, v)]) vdac_setup
      else
        vdacs <- on_asic (config_block "vdacs") ;;
        if dict_mem k vdacs then sort_dac_loop dac_setup rest idac_setup (Some [(k, v)])
        else
          log WARNING (bad_dac_msg dac_setup) ;;
          ret None
  end.

Definition sort_dac_setup (dac_setup : dict Z) (idac_setup vdac_setup : option (dict Z))
  : M astropixRun (option (option (dict Z) * option (dict Z))) :=
  sort_dac_loop dac_setup dac_setup idac_setup vdac_setup.

(** Modelled from the spec: [enable_ampout_col(col, inplace=False)],
    [set_inj_col(col, True)] and [set_inj_row(row, True)] of [core/asic.py],
    which is not among the sources.  They are the operations of section 4.3
    of the spec: select the analog-mux column, enable the column injection
    switch, enable the row injection switch. *)
Definition select_ampout_col (col : Z) : M astropixRun unit :=
  on_asic (enable_ampout_col col).

Definition set_inj_col (col : Z) (enable : bool) : M astropixRun unit :=
  on_asic (if enable then enable_inj_col col else disable_inj_col col).

Definition set_inj_row (row : Z) (enable : bool) : M astropixRun unit :=
  on_asic (if enable then enable_inj_row row else disable_inj_row row).

(** [asic_init].  [loaded] is the [Asic] object as the constructor and
    [load_conf_from_yaml] leave it (reading the file is outside the model).
    The [return] of the sorting loop ends the method. *)
Definition asic_init (loaded : Asic) (dac_setup bias_setup : option (dict Z))
                     (analog_col : option Z) : M astropixRun unit :=
  modify (set_asic_start true) ;;
  modify (set_asic (Some loaded)) ;;
  sorted <- match dac_setup with
            | Some (kv :: rest) => sort_dac_setup (kv :: rest) None None
            | _ => ret (Some (None, None))
            end ;;
  match sorted with
  | None => ret tt
  | Some (idac_setup, vdac_setup) =>
      update_asic_config bias_setup idac_setup vdac_setup ;;
      match analog_col with
      | Some c =>
          nc <- on_asic (gets _num_cols) ;;
          if c <=? nc then
            log INFO ("enabling analog output in column " ++ str_of_int c)%string ;;
            select_ampout_col c
          else ret tt
      | None => ret tt
      end ;;
      icol <- gets injection_col ;;
      match icol with
      | Some c =>
          set_inj_col c true ;;
          irow <- gets injection_row ;;
          match irow with
          | Some r => set_inj_row r true
          | None => raise TypeError
          end
      | None => ret tt
      end ;;
      log INFO "LOADING TO ASIC..." ;;
      asic_update ;;
      log INFO "ASIC SUCCESSFULLY CONFIGURED"
  end.

(** [_test_io]: the bytes answered by [read_register] are dropped; only an
    exception of one of the four calls is turned into the [RuntimeError]. *)
Definition _test_io : M astropixRun unit :=
  try_except
    (nexys_do (write_register 0x09 0x55 true) ;;
     nexys_do (read_register 0x09) ;;
     nexys_do spi_reset_fpga_readout ;;
     nexys_do sr_readback_reset ;;
     ret tt)
    (fun _ => raise (RuntimeError "Could not read or write from astropix!")).

(** [astropixRun.__init__] with [offline=False], on the blank object; the
    two-second wait is not modelled. *)
Definition astropixRun_init (version : Z) (inject : option (option Z * option Z))
  : M astropixRun unit :=
  modify (set_asic_start false) ;;
  nexys_do autoopen ;;
  log INFO "Opened FPGA, testing..." ;;
  _test_io ;;
  log INFO "FPGA test successful." ;;
  modify (fun self =>
    let inj := match inject with Some i => i | None => (None, None) end in
    mkRun (_asic_start self) (asic self) (snd inj) (fst inj) version
          (nexys self) (run_log self)).

End RunControl.

Definition blank_run : astropixRun := mkRun false None None None 0 [] [].

(** ** Predicates of the data model *)

(** A field is valid when its width is positive and its value fits it. *)
Definition valid_field (f : Field) : bool :=
  (0 <? width f) && (0 <=? value f) && (value f <? 2 ^ width f).

Definition valid_block (b : Block) : bool := forallb (fun kv => valid_field (snd kv)) b.

Definition valid_config (cfg : ChipConfig) : bool :=
  forallb (fun kb => valid_block (snd kb)) cfg.

(** The widths of all fields of all blocks, in scan-chain order. *)
Definition field_widths (cfg : ChipConfig) : list Z :=
  flat_map (fun kb => map (fun kv => width (snd kv)) (snd kb)) cfg.

Definition total_width (cfg : ChipConfig) : Z := fold_right Z.add 0 (field_widths cfg).

(** The bits of a block and of a config whose fields are valid: each value on
    its width, most significant bit first, in insertion order. *)
Definition block_bits (b : Block) : BitArray :=
  flat_map (fun kv => uint_bits (Z.to_nat (width (snd kv))) (value (snd kv))) b.

Definition config_bits (cfg : ChipConfig) : BitArray :=
  flat_map (fun kb => block_bits (snd kb)) cfg.

(** The receiver block and the word of column [col], when present. *)
Definition recconfig (self : Asic) : option Block :=
  match asic_config self with
  | Some cfg => dict_get "recconfig" cfg
  | None => None
  end.

Definition column_word (col : Z) (self : Asic) : option Z :=
  match recconfig self with
  | Some b => option_map value (dict_get (col_key col) b)
  | None => None
  end.

(** The mux-select bit of a column word. *)
Definition ampout_selected (w : Z) : bool := Z.testbit w 37.

(** The receiver block matches the geometry: it holds one field per column,
    that is, its keys are the column keys [col0 .. col(num_cols-1)], each
    once, in whatever order. *)
Fixpoint nodupb (l : list string) : bool :=
  match l with
  | [] => true
  | k :: l' => negb (existsb (String.eqb k) l') && nodupb l'
  end.

Definition subsetb (l1 l2 : list string) : bool :=
  forallb (fun k => existsb (String.eqb k) l2) l1.

Definition recconfig_matches_geometry (self : Asic) : bool :=
  match recconfig self with
  | Some b =>
      let cols := map col_key (range (_num_cols self)) in
      nodupb (map fst b) && subsetb (map fst b) cols && subsetb cols (map fst b)
  | None => false
  end.


(** The object once its receiver block has been rewritten by [G]. *)
Definition recconfig_update (G : Block -> Block) (self : Asic) : Asic :=
  match asic_config self with
  | Some cfg => with_config (dict_adjust G "recconfig" cfg) self
  | None => self
  end.

(** A column word with its mux-select bit cleared by [& 0b011_1..1], and set
    by [| 0b100_0..0]. *)
Definition ampout_off (f : Field) : Field := set_value (Z.land (value f) AMPOUT_OFF) f.
Definition ampout_on (f : Field) : Field := set_value (Z.lor (value f) AMPOUT_BIT) f.

(** The receiver block after the loop of [enable_ampout_col] has visited the
    columns [l], and after the whole method on a geometry of [n] columns. *)
Definition ampout_cleared (l : list Z) (b : Block) : Block :=
  fold_left (fun b i => dict_adjust ampout_off (col_key i) b) l b.

Definition ampout_block (n col : Z) (b : Block) : Block :=
  dict_adjust ampout_on (col_key col) (ampout_cleared (range n) b).

(** What [enable_ampout_col col], on a geometry of [n] columns, makes of the
    field stored under key [k]. *)
Definition ampout_field (n col : Z) (k : string) (f : Field) : Field :=
  let f1 := if existsb (String.eqb k) (map col_key (range n)) then ampout_off f else f in
  if String.eqb (col_key col) k then ampout_on f1 else f1.


(** The value stored in field [k] of block [blk], when there is one. *)
Definition config_value (blk k : string) (self : Asic) : option Z :=
  match asic_config self with
  | Some cfg =>
      match dict_get blk cfg with
      | Some b => option_map value (dict_get k b)
      | None => None
      end
  | None => None
  end.

Definition run_value (blk k : string) (self : astropixRun) : option Z :=
  match asic self with
  | Some a => config_value blk k a
  | None => None
  end.

(** The calls of the self-test, in the order they are made. *)
Definition test_io_calls : list nexys_call :=
  [write_register 0x09 0x55 true; read_register 0x09; spi_reset_fpga_readout;
   sr_readback_reset].

(** Whether the board answers each of the calls [cs], made one after the
    other after the calls [history], without raising; what it answers is not
    looked at. *)
Fixpoint all_answered (board : list nexys_call -> nexys_call -> outcome (list Byte.byte))
         (history : list nexys_call) (cs : list nexys_call) : bool :=
  match cs with
  | [] => true
  | c :: cs' =>
      match board history c with
      | Returns _ => all_answered board (c :: history) cs'
      | Raises _ => false
      end
  end.

(** ** Fixtures *)

Definition fixture_recconfig (cols : Z) : Block :=
  map (fun i => (col_key i, mkField 38 RECCONFIG_DEFAULT)) (range cols).

Definition fixture_config : ChipConfig :=
  [ ("digitalconfig", [ ("interrupt_pushpull", mkField 1 1); ("ResetB", mkField 1 0) ]);
    ("biasconfig", [ ("DisHiDR", mkField 1 0); ("qon1", mkField 1 1) ]);
    ("idacs", [ ("blres", mkField 6 0); ("vn1", mkField 6 20); ("vnfb", mkField 6 1) ]);
    ("vdacs", [ ("blpix", mkField 10 568); ("thpix", mkField 10 610) ]);
    ("recconfig", fixture_recconfig 35) ].

Definition fixture_asic : Asic := mkAsic 35 35 (Some fixture_config) [] [].



(** The fixture once pixel (3, 0) has been enabled. *)
Definition fixture_pixel_on : Asic := snd (enable_pixel 3 0 fixture_asic).

(** A library that appends nothing for [None], and one that raises. *)
Definition append_None_nothing (b : BitArray) : outcome BitArray := Returns b.
Definition append_None_raises (b : BitArray) : outcome BitArray := Raises TypeError.

(** A board on which no call raises and every read answers the byte [byte]. *)
Definition board_reading (byte : Byte.byte) (history : list nexys_call) (c : nexys_call)
  : outcome (list Byte.byte) :=
  match c with
  | read_register _ => Returns [byte]
  | _ => Returns []
  end.

(** A session right after [__init__] on a board that reads back [0x55]. *)
Definition fixture_opened : astropixRun :=
  snd (astropixRun_init (board_reading Byte.x55) 2 None blank_run).

(** A session whose ASIC has been initialized with the fixture, no board call
    recorded yet. *)
Definition fixture_run : astropixRun :=
  mkRun true (Some fixture_asic) None None 2 [] [].

(** ** Loading a parsed configuration document: [load_conf_from_yaml] *)

(** What [yaml.safe_load] gives for one chip: a mapping that may hold a
    [geometry] mapping and a [config] mapping. *)
Record chip_entry : Type := mkChip {
  geometry : option (dict Z);
  config : option ChipConfig
}.

Definition asic_log (lv : level) (msg : string) : M Asic unit :=
  modify (fun self =>
    mkAsic (_num_rows self) (_num_cols self) (asic_config self)
           ((lv, msg) :: logger self) (stdout self)).

(** The setters of the properties [num_cols] and [num_rows], and the
    assignment of [self.asic_config]. *)
Definition set_num_cols (cols : Z) (self : Asic) : Asic :=
  mkAsic (_num_rows self) cols (asic_config self) (logger self) (stdout self).

Definition set_num_rows (rows : Z) (self : Asic) : Asic :=
  mkAsic rows (_num_cols self) (asic_config self) (logger self) (stdout self).

(** [f'astropix{chipversion}'] and the log lines built on it. *)
Definition chip_key (chipversion : Z) : string :=
  ("astropix" ++ str_of_int chipversion)%string.

Definition chip_msg (chipversion : Z) (what : string) : string :=
  ("Astropix" ++ str_of_int chipversion ++ what)%string.

(** [dict_from_yml.get(chip)['config']]: [get] answers [None] for an absent
    chip, and subscripting [None] is a [TypeError]. *)
Definition yml_config (chip : string) (dict_from_yml : dict chip_entry) : outcome ChipConfig :=
  match dict_get chip dict_from_yml with
  | None => Raises TypeError
  | Some e =>
      match config e with
      | Some c => Returns c
      | None => Raises (KeyError "config")
      end
  end.

(** [dict_from_yml[chip].get('geometry')[axis]] *)
Definition yml_geometry (chip axis : string) (dict_from_yml : dict chip_entry) : outcome Z :=
  match dict_get chip dict_from_yml with
  | None => Raises (KeyError chip)
  | Some e =>
      match geometry e with
      | Some g => subscript axis g
      | None => Raises TypeError
      end
  end.

(** [load_conf_from_yaml] from the point where the document has been parsed
    into [dict_from_yml] (opening and parsing the file are outside the model).
    Both [try] blocks end in a bare [except]. *)
Definition load_conf_from_yaml (chipversion : Z) (dict_from_yml : dict chip_entry)
  : M Asic unit :=
  try_except
    (c <- lift_outcome (yml_config (chip_key chipversion) dict_from_yml) ;;
     modify (with_config c) ;;
     asic_log INFO (chip_msg chipversion " config found!"))
    (fun _ => asic_log ERROR (chip_msg chipversion " config not found")) ;;
  try_except
    (cols <- lift_outcome (yml_geometry (chip_key chipversion) "cols" dict_from_yml) ;;
     modify (set_num_cols cols) ;;
     rows <- lift_outcome (yml_geometry (chip_key chipversion) "rows" dict_from_yml) ;;
     modify (set_num_rows rows) ;;
     asic_log INFO (chip_msg chipversion " matrix dimensions found!"))
    (fun _ => asic_log ERROR (chip_msg chipversion " matrix dimensions not found!")).

(** ** Reading the interrupt register: [hits_present] *)

(** [int.from_bytes(bs, "big")] *)
Definition int_from_bytes_big (bs : list Byte.byte) : Z :=
  fold_left (fun acc b => 256 * acc + Z.of_N (Byte.to_N b)) bs 0.

Definition is_zero_byte (b : Byte.byte) : bool := (Byte.to_N b =? 0)%N.

Section Readout.

Variable board : list nexys_call -> nexys_call -> outcome (list Byte.byte).

(** [hits_present]: true when register 70 reads as zero. *)
Definition hits_present : M astropixRun bool :=
  bs <- nexys_do board (read_register 70) ;;
  if int_from_bytes_big bs =? 0 then ret true else ret false.

End Readout.

(** ** Further predicates *)

(** The fields of a config in scan-chain order, and their values. *)
Definition fields (cfg : ChipConfig) : list Field := map snd (flat_map snd cfg).

Definition field_values (cfg : ChipConfig) : list Z := map value (fields cfg).

(** The bits of the fields that the library accepts, the widths of those
    fields, and the lines printed for the others (latest first). *)
Definition accepted_bits (cfg : ChipConfig) : BitArray :=
  flat_map (fun f => if valid_field f then uint_bits (Z.to_nat (width f)) (value f) else [])
           (fields cfg).

Definition accepted_widths (cfg : ChipConfig) : list Z :=
  map width (filter valid_field (fields cfg)).

Definition rejected_lines (cfg : ChipConfig) : list line :=
  rev (map (fun f => AllowedValues (width f)) (filter (fun f => negb (valid_field f)) (fields cfg))).

(** [s'] has the config, the geometry and the log of [self]. *)
Definition same_model (self s' : Asic) : Prop :=
  asic_config s' = asic_config self /\ _num_rows s' = _num_rows self
  /\ _num_cols s' = _num_cols self /\ logger s' = logger self.

(** The object once the lines [ls] (latest first) have been printed. *)
Definition add_stdout (ls : list line) (self : Asic) : Asic :=
  mkAsic (_num_rows self) (_num_cols self) (asic_config self) (logger self)
         (ls ++ stdout self).

(** The entries of an optional mapping. *)
Definition entries (o : option (dict Z)) : dict Z :=
  match o with Some d => d | None => [] end.

(** The value of a field once the assignments [d] have been made in order:
    the value given last for its key [k], or [old] when [d] has no such
    key. *)
Definition overridden (d : dict Z) (k : string) (old : option Z) : option Z :=
  match old, dict_get k (rev d) with
  | Some _, Some v => Some v
  | _, _ => old
  end.

(** The block [blk] of the config, when there is one. *)
Definition block_of (blk : string) (self : Asic) : option Block :=
  match asic_config self with
  | Some cfg => dict_get blk cfg
  | None => None
  end.

(** The entries of [d] that come before its first key absent from [b]: the
    ones a writing loop gets through. *)
Fixpoint written_prefix (d : dict Z) (b : Block) : dict Z :=
  match d with
  | [] => []
  | (k, v) :: rest => if dict_mem k b then (k, v) :: written_prefix rest b else []
  end.

(** The first key of [d] that block [b] does not hold. *)
Definition first_absent (d : dict Z) (b : Block) : option string :=
  option_map fst (find (fun kv => negb (dict_mem (fst kv) b)) d).

(** The entry of [d] classified last into a group, as the one-entry dict the
    sorting loop builds for it; [acc] when the group got no key. *)
Definition last_of_group (P : string -> bool) (d : dict Z) (acc : option (dict Z))
  : option (dict Z) :=
  match find (fun kv => P (fst kv)) (rev d) with
  | Some kv => Some [kv]
  | None => acc
  end.

(** A config document holding the fixture for chip version 2, one without
    the row count, and a board that raises on every call. *)
Definition fixture_yml : dict chip_entry :=
  [ ("astropix2", mkChip (Some [("cols", 35); ("rows", 35)]) (Some fixture_config)) ].

Definition fixture_yml_no_rows : dict chip_entry :=
  [ ("astropix2", mkChip (Some [("cols", 16)]) (Some fixture_config)) ].

(** The fixture with one field whose value does not fit its width. *)
Definition fixture_unfit : Asic :=
  mkAsic 35 35
    (Some [ ("biasconfig", [ ("DisHiDR", mkField 1 0); ("qon1", mkField 1 2) ]);
            ("idacs", [ ("blres", mkField 6 5) ]) ])
    [] [].

(** ** The bit encoding *)

Lemma uint_bits_length (n : nat) (v : Z) : List.length (uint_bits n v) = n.
Proof. induction n as [|n IH]; simpl; [reflexivity | now rewrite IH]. Qed.

Lemma uint_fold_acc (b : BitArray) (acc : Z) :
  fold_left (fun a bit => 2 * a + Z.b2z bit) b acc
  = acc * 2 ^ Z.of_nat (List.length b) + uint b.
Proof.
  unfold uint. revert acc.
  induction b as [|x b IH]; intros acc.
  - simpl. lia.
  - cbn [fold_left List.length]. rewrite IH, (IH (2 * 0 + Z.b2z x)).
    rewrite Nat2Z.inj_succ, Z.pow_succ_r by lia. ring.
Qed.

Lemma uint_cons (x : bool) (b : BitArray) :
  uint (x :: b) = Z.b2z x * 2 ^ Z.of_nat (List.length b) + uint b.
Proof.
  unfold uint at 1. cbn [fold_left]. rewrite uint_fold_acc. f_equal.
Qed.

Lemma uint_of_uint_bits (n : nat) (v : Z) :
  uint (uint_bits n v) = v mod 2 ^ Z.of_nat n.
Proof.
  induction n as [|n IH].
  - simpl. now rewrite Z.mod_1_r.
  - cbn [uint_bits]. rewrite uint_cons, uint_bits_length, IH.
    rewrite Nat2Z.inj_succ, Z.pow_succ_r by lia.
    assert (Hpos : 0 < 2 ^ Z.of_nat n) by (apply Z.pow_pos_nonneg; lia).
    rewrite (Z.mul_comm 2), Z.rem_mul_r by lia.
    rewrite Z.testbit_spec' by lia. ring.
Qed.

Lemma BitArray_of_uint_fits (v n : Z) :
  0 < n -> 0 <= v < 2 ^ n ->
  BitArray_of_uint v n = Returns (uint_bits (Z.to_nat n) v).
Proof.
  intros Hn [Hv0 Hv]. unfold BitArray_of_uint.
  destruct (Z.leb_spec n 0); [lia|].
  destruct (Z.ltb_spec v 0); [lia|].
  destruct (Z.leb_spec (2 ^ n) v); [lia|]. reflexivity.
Qed.

Lemma BitArray_of_uint_too_large (v n : Z) :
  2 ^ n <= v -> BitArray_of_uint v n = Raises ValueError.
Proof.
  intros Hv. unfold BitArray_of_uint.
  destruct (Z.leb_spec n 0); [reflexivity|].
  destruct (Z.ltb_spec v 0); [reflexivity|].
  destruct (Z.leb_spec (2 ^ n) v); [reflexivity | lia].
Qed.

(** C7. For a positive width [nbits], every value with
    [0 <= value < 2^nbits] is encoded by [__int2nbit] as a bit array of
    length [nbits] whose unsigned reading is [value] again; a value of
    [2^nbits] or more is not encoded: the library's error is reported on
    standard output and no bit array is produced (nothing is truncated). *)
Theorem int2nbit_roundtrip (self : Asic) (v nbits : Z) :
  0 < nbits ->
  (0 <= v < 2 ^ nbits ->
     exists b, __int2nbit v nbits self = (Returns (Some b), self)
               /\ Z.of_nat (List.length b) = nbits /\ uint b = v)
  /\ (2 ^ nbits <= v ->
     exists self', __int2nbit v nbits self = (Returns None, self')
                   /\ stdout self' = AllowedValues nbits :: stdout self
                   /\ asic_config self' = asic_config self).
Proof.
  intros Hn. split.
  - intros Hv. exists (uint_bits (Z.to_nat nbits) v).
    unfold __int2nbit. rewrite BitArray_of_uint_fits by assumption.
    split; [reflexivity|]. split.
    + rewrite uint_bits_length. lia.
    + rewrite uint_of_uint_bits, Z2Nat.id by lia. apply Z.mod_small; assumption.
  - intros Hv. unfold __int2nbit. rewrite BitArray_of_uint_too_large by assumption.
    eexists. split; [reflexivity|]. split; reflexivity.
Qed.

Lemma int2nbit_roundtrip_witness :
  (exists b, __int2nbit 20 6 fixture_asic = (Returns (Some b), fixture_asic)
             /\ Z.of_nat (List.length b) = 6 /\ uint b = 20)
  /\ (exists self', __int2nbit 64 6 fixture_asic = (Returns None, self')
                    /\ stdout self' = AllowedValues 6 :: stdout fixture_asic
                    /\ asic_config self' = asic_config fixture_asic).
Proof.
  split.
  - refine (proj1 (int2nbit_roundtrip fixture_asic 20 6 _) _); lia.
  - refine (proj2 (int2nbit_roundtrip fixture_asic 64 6 _) _); vm_compute; congruence.
Defined.

(** ** The serializer *)

Lemma bind_returns {S A B} (m : M S A) (k : A -> M S B) (s s' : S) (a : A) :
  m s = (Returns a, s') -> bind m k s = k a s'.
Proof. intros H. unfold bind. now rewrite H. Qed.

Lemma bind_raises {S A B} (m : M S A) (k : A -> M S B) (s s' : S) (e : exn) :
  m s = (Raises e, s') -> bind m k s = (Raises e, s').
Proof. intros H. unfold bind. now rewrite H. Qed.

Lemma valid_field_spec (f : Field) :
  valid_field f = true -> 0 < width f /\ 0 <= value f < 2 ^ width f.
Proof.
  unfold valid_field. rewrite !andb_true_iff.
  intros [[H1 H2] H3].
  apply Z.ltb_lt in H1. apply Z.leb_le in H2. apply Z.ltb_lt in H3. lia.
Qed.

Lemma block_bits_length (b : Block) :
  valid_block b = true ->
  Z.of_nat (List.length (block_bits b))
  = fold_right Z.add 0 (map (fun kv => width (snd kv)) b).
Proof.
  induction b as [|[k f] b IH]; intros Hb; [reflexivity|].
  cbn in Hb. apply andb_true_iff in Hb as [Hf Hb].
  apply valid_field_spec in Hf as [Hw _].
  cbn [block_bits flat_map map fold_right snd].
  rewrite length_app, uint_bits_length, Nat2Z.inj_add.
  fold (block_bits b). rewrite IH by assumption. lia.
Qed.

Lemma config_bits_length (cfg : ChipConfig) :
  valid_config cfg = true ->
  Z.of_nat (List.length (config_bits cfg)) = total_width cfg.
Proof.
  unfold total_width, field_widths.
  induction cfg as [|[k b] cfg IH]; intros Hc; [reflexivity|].
  cbn in Hc. apply andb_true_iff in Hc as [Hb Hc].
  cbn [config_bits flat_map snd].
  rewrite length_app, Nat2Z.inj_add, block_bits_length by assumption.
  fold (config_bits cfg). rewrite IH by assumption.
  generalize (map (fun kv : string * Field => width (snd kv)) b) as ws.
  induction ws as [|w ws IHw]; cbn [fold_right app]; lia.
Qed.

Section SerializerFacts.

Variable append_None : BitArray -> outcome BitArray.

Lemma fields_loop (b : Block) (acc : BitArray) (self : Asic) :
  valid_block b = true ->
  foldM (fun bitvector (values : string * Field) =>
           x <- __int2nbit (value (snd values)) (width (snd values)) ;;
           lift_outcome (append append_None bitvector x))
        b acc self
  = (Returns (acc ++ block_bits b), self).
Proof.
  revert acc. induction b as [|[k f] b IH]; intros acc Hb.
  - cbn. now rewrite app_nil_r.
  - cbn in Hb. apply andb_true_iff in Hb as [Hf Hb].
    apply valid_field_spec in Hf as [Hw Hv].
    cbn [foldM snd]. unfold bind at 1, bind at 1, __int2nbit.
    rewrite BitArray_of_uint_fits by assumption. cbn.
    rewrite IH by assumption.
    now rewrite <- app_assoc.
Qed.

Lemma blocks_loop (cfg : ChipConfig) (acc : BitArray) (self : Asic) :
  valid_config cfg = true ->
  foldM (fun bitvector (blk : string * Block) =>
           foldM (fun bitvector (values : string * Field) =>
                    x <- __int2nbit (value (snd values)) (width (snd values)) ;;
                    lift_outcome (append append_None bitvector x))
                 (snd blk) bitvector)
        cfg acc self
  = (Returns (acc ++ config_bits cfg), self).
Proof.
  revert acc. induction cfg as [|[k b] cfg IH]; intros acc Hc.
  - cbn. now rewrite app_nil_r.
  - cbn in Hc. apply andb_true_iff in Hc as [Hb Hc].
    cbn [foldM snd]. erewrite bind_returns by (apply fields_loop; assumption).
    rewrite IH by assumption. cbn [config_bits flat_map snd].
    now rewrite <- app_assoc.
Qed.

Lemma gen_asic_vector_valid (msbfirst : bool) (self : Asic) (cfg : ChipConfig) :
  asic_config self = Some cfg ->
  valid_config cfg = true ->
  gen_asic_vector append_None msbfirst self
  = (Returns (if negb msbfirst then rev (config_bits cfg) else config_bits cfg), self).
Proof.
  intros Hcfg Hv. unfold gen_asic_vector.
  erewrite bind_returns by (rewrite Hcfg; reflexivity).
  erewrite bind_returns by (apply blocks_loop; assumption).
  reflexivity.
Qed.

(** C1. On a config whose fields are all valid, [gen_asic_vector] returns
    a bit sequence (and leaves the object as it was), for either setting of
    [msbfirst]; its length is the sum of the widths of all fields of all
    blocks, a quantity in which the field values do not occur. *)
Theorem gen_asic_vector_length (msbfirst : bool) (self : Asic) (cfg : ChipConfig) :
  asic_config self = Some cfg ->
  valid_config cfg = true ->
  exists bits,
    gen_asic_vector append_None msbfirst self = (Returns bits, self)
    /\ Z.of_nat (List.length bits) = total_width cfg.
Proof.
  intros Hcfg Hv. eexists. split.
  - apply gen_asic_vector_valid; eassumption.
  - rewrite <- (config_bits_length cfg Hv).
    destruct msbfirst; cbn [negb]; [reflexivity | now rewrite length_rev].
Qed.

(** C2. On a config whose fields are all valid, the vector generated with
    [msbfirst = false] is the reversal, as one whole sequence, of the vector
    generated with [msbfirst = true]. *)
Theorem gen_asic_vector_reversal (self : Asic) (cfg : ChipConfig) :
  asic_config self = Some cfg ->
  valid_config cfg = true ->
  exists bits,
    gen_asic_vector append_None true self = (Returns bits, self)
    /\ gen_asic_vector append_None false self = (Returns (rev bits), self).
Proof.
  intros Hcfg Hv. exists (config_bits cfg).
  split.
  - exact (gen_asic_vector_valid true self cfg Hcfg Hv).
  - exact (gen_asic_vector_valid false self cfg Hcfg Hv).
Qed.

End SerializerFacts.

Lemma gen_asic_vector_length_witness :
  exists bits,
    gen_asic_vector append_None_raises false fixture_asic = (Returns bits, fixture_asic)
    /\ Z.of_nat (List.length bits) = total_width fixture_config.
Proof.
  apply (gen_asic_vector_length append_None_raises false fixture_asic fixture_config);
    reflexivity.
Defined.

(** The reversal is of the whole vector: fields [01] and [11] give [0111]
    with the most significant bit first and [1110] otherwise, not [1011]. *)
Lemma gen_asic_vector_reversal_is_whole_vector :
  let self := mkAsic 35 35 (Some [("b", [("x", mkField 2 1); ("y", mkField 2 3)])]) [] [] in
  fst (gen_asic_vector append_None_raises true self) = Returns [false; true; true; true]
  /\ fst (gen_asic_vector append_None_raises false self) = Returns [true; true; true; false].
Proof. split; reflexivity. Qed.

Lemma gen_asic_vector_reversal_witness :
  exists bits,
    gen_asic_vector append_None_raises true fixture_asic = (Returns bits, fixture_asic)
    /\ gen_asic_vector append_None_raises false fixture_asic = (Returns (rev bits), fixture_asic).
Proof.
  apply (gen_asic_vector_reversal append_None_raises fixture_asic fixture_config);
    reflexivity.
Defined.

(** ** Dicts and column keys *)

Lemma dict_get_adjust_same {V} (g : V -> V) (k : string) (d : dict V) :
  dict_get k (dict_adjust g k d) = option_map g (dict_get k d).
Proof.
  induction d as [|[k' v] d IH]; [reflexivity|].
  cbn [dict_adjust dict_get].
  destruct (String.eqb k k') eqn:E; cbn [dict_get]; rewrite E; [reflexivity | exact IH].
Qed.

Lemma dict_get_adjust_other {V} (g : V -> V) (k k' : string) (d : dict V) :
  k' <> k -> dict_get k' (dict_adjust g k d) = dict_get k' d.
Proof.
  intros Hk. induction d as [|[k0 v] d IH]; [reflexivity|].
  cbn [dict_adjust dict_get].
  destruct (String.eqb k k0) eqn:E; cbn [dict_get].
  - apply String.eqb_eq in E. subst k0.
    destruct (String.eqb k' k) eqn:E'; [apply String.eqb_eq in E'; contradiction | reflexivity].
  - destruct (String.eqb k' k0); [reflexivity | exact IH].
Qed.

Lemma dict_adjust_keys {V} (g : V -> V) (k : string) (d : dict V) :
  map fst (dict_adjust g k d) = map fst d.
Proof.
  induction d as [|[k' v] d IH]; [reflexivity|].
  cbn [dict_adjust]. destruct (String.eqb k k'); cbn [map fst]; [reflexivity | now rewrite IH].
Qed.

Lemma dict_adjust_compose {V} (g1 g2 : V -> V) (k : string) (d : dict V) :
  dict_adjust g2 k (dict_adjust g1 k d) = dict_adjust (fun v => g2 (g1 v)) k d.
Proof.
  induction d as [|[k' v] d IH]; [reflexivity|].
  cbn [dict_adjust]. destruct (String.eqb k k') eqn:E; cbn [dict_adjust]; rewrite E;
    [reflexivity | now rewrite IH].
Qed.

(** Only the value found under [k] matters to an update at [k]. *)
Lemma dict_adjust_ext {V} (g g' : V -> V) (k : string) (d : dict V) (v : V) :
  dict_get k d = Some v -> g v = g' v -> dict_adjust g k d = dict_adjust g' k d.
Proof.
  intros Hget Hg. induction d as [|[k' v'] d IH]; [reflexivity|].
  cbn [dict_adjust dict_get] in *. destruct (String.eqb k k').
  - injection Hget as ->. now rewrite Hg.
  - now rewrite IH.
Qed.



Lemma str_of_int_inj (i j : Z) : str_of_int i = str_of_int j -> i = j.
Proof.
  unfold str_of_int. intros H. apply DecimalZ.to_int_inj.
  pose proof (NilEmpty.isi (Z.to_int i)) as Hi.
  rewrite H, NilEmpty.isi in Hi. now injection Hi.
Qed.

Lemma col_key_inj (i j : Z) : col_key i = col_key j -> i = j.
Proof.
  unfold col_key. cbn. intros H. injection H. apply str_of_int_inj.
Qed.

(** ** Reading and writing a column word *)

Lemma recconfig_assign (k : string) (v : Z) (self : Asic) :
  recconfig (assign_value "recconfig" k v self)
  = option_map (dict_adjust (set_value v) k) (recconfig self).
Proof.
  unfold recconfig, assign_value.
  destruct (asic_config self) as [cfg|] eqn:E; [|now rewrite E].
  cbn [asic_config with_config]. apply dict_get_adjust_same.
Qed.

Lemma assign_value_geometry (blk k : string) (v : Z) (self : Asic) :
  _num_rows (assign_value blk k v self) = _num_rows self
  /\ _num_cols (assign_value blk k v self) = _num_cols self
  /\ logger (assign_value blk k v self) = logger self
  /\ stdout (assign_value blk k v self) = stdout self.
Proof.
  unfold assign_value. destruct (asic_config self); repeat split; reflexivity.
Qed.

Lemma config_block_recconfig (self : Asic) (b : Block) :
  recconfig self = Some b -> config_block "recconfig" self = (Returns b, self).
Proof.
  unfold recconfig, config_block, subscript.
  destruct (asic_config self) as [cfg|]; [|discriminate].
  now intros ->.
Qed.

Lemma store_value_ok (k : string) (v : Z) (self : Asic) (b : Block) (f : Field) :
  recconfig self = Some b -> dict_get k b = Some f ->
  store_value "recconfig" k v self = (Returns tt, assign_value "recconfig" k v self).
Proof.
  intros Hb Hk. unfold store_value.
  erewrite bind_returns by (apply config_block_recconfig; eassumption).
  unfold bind, lift_outcome, subscript. now rewrite Hk.
Qed.

Lemma recconfig_get_ok (k : string) (self : Asic) (b : Block) (f : Field) :
  recconfig self = Some b -> dict_get k b = Some f ->
  recconfig_get k self = (Returns (value f), self).
Proof.
  intros Hb Hk. unfold recconfig_get.
  erewrite bind_returns by (apply config_block_recconfig; eassumption).
  now rewrite Hk.
Qed.

Lemma recconfig_item_ok (k : string) (self : Asic) (b : Block) (f : Field) :
  recconfig self = Some b -> dict_get k b = Some f ->
  recconfig_item k self = (Returns (value f), self).
Proof.
  intros Hb Hk. unfold recconfig_item.
  erewrite bind_returns by (apply config_block_recconfig; eassumption).
  unfold bind, lift_outcome, subscript. now rewrite Hk.
Qed.

Lemma column_word_inv (col : Z) (self : Asic) (w : Z) :
  column_word col self = Some w ->
  exists b f, recconfig self = Some b /\ dict_get (col_key col) b = Some f /\ value f = w.
Proof.
  unfold column_word. destruct (recconfig self) as [b|]; [|discriminate].
  destruct (dict_get (col_key col) b) as [f|] eqn:E; [|discriminate].
  cbn. intros [= <-]. now exists b, f.
Qed.

Lemma column_word_assign_same (col v w : Z) (self : Asic) :
  column_word col self = Some w ->
  column_word col (assign_value "recconfig" (col_key col) v self) = Some v.
Proof.
  intros H. apply column_word_inv in H as (b & f & Hb & Hk & _).
  unfold column_word. rewrite recconfig_assign, Hb. cbn [option_map].
  now rewrite dict_get_adjust_same, Hk.
Qed.

(** ** Bits of a column word *)

Lemma pixel_mask (row : Z) :
  0 <= row -> Z.shiftl 2 row = 2 ^ (row + 1) /\ Z.shiftl 1 (row + 1) = 2 ^ (row + 1).
Proof.
  intros H. rewrite !Z.shiftl_mul_pow2 by lia.
  rewrite Z.pow_add_r by lia. change (2 ^ 1) with 2. lia.
Qed.

Lemma land_pow2 (w n : Z) :
  0 <= n -> Z.land w (2 ^ n) = if Z.testbit w n then 2 ^ n else 0.
Proof.
  intros Hn. apply Z.bits_inj'. intros i Hi.
  rewrite Z.land_spec, Z.pow2_bits_eqb by lia.
  destruct (Z.eqb_spec n i) as [->|Hne].
  - destruct (Z.testbit w i); cbn.
    + rewrite Z.pow2_bits_eqb by lia. now rewrite Z.eqb_refl.
    + now rewrite Z.bits_0.
  - rewrite andb_false_r. destruct (Z.testbit w n).
    + rewrite Z.pow2_bits_eqb by lia. symmetry. now apply Z.eqb_neq.
    + now rewrite Z.bits_0.
Qed.

Lemma testbit_clear (w n : Z) :
  0 <= n -> Z.testbit (Z.land w (Z.lnot (2 ^ n))) n = false.
Proof.
  intros Hn. rewrite Z.land_spec, Z.lnot_spec, Z.pow2_bits_eqb, Z.eqb_refl by lia.
  apply andb_false_r.
Qed.

Lemma testbit_set (w n : Z) :
  0 <= n -> Z.testbit (Z.lor w (2 ^ n)) n = true.
Proof.
  intros Hn. rewrite Z.lor_spec, Z.pow2_bits_eqb, Z.eqb_refl by lia.
  apply orb_true_r.
Qed.

Lemma clear_then_set (w n : Z) :
  0 <= n -> Z.lor (Z.land w (Z.lnot (2 ^ n))) (2 ^ n) = Z.lor w (2 ^ n).
Proof.
  intros Hn. apply Z.bits_inj'. intros i Hi.
  rewrite !Z.lor_spec, Z.land_spec, Z.lnot_spec by lia.
  destruct (Z.testbit w i), (Z.testbit (2 ^ n) i); reflexivity.
Qed.

Lemma set_is_identity_iff (w n : Z) :
  0 <= n -> (Z.lor w (2 ^ n) = w <-> Z.testbit w n = true).
Proof.
  intros Hn. split.
  - intros H. rewrite <- H. now apply testbit_set.
  - intros H. apply Z.bits_inj'. intros i Hi.
    rewrite Z.lor_spec, Z.pow2_bits_eqb by lia.
    destruct (Z.eqb_spec n i) as [->|_]; [rewrite H; reflexivity | apply orb_false_r].
Qed.

(** ** Pixel operations inside the geometry *)

Lemma enable_pixel_ok (col row w : Z) (self : Asic) :
  0 <= row < _num_rows self -> col < _num_cols self ->
  column_word col self = Some w ->
  enable_pixel col row self
  = (Returns tt,
     assign_value "recconfig" (col_key col) (Z.land w (Z.lnot (2 ^ (row + 1)))) self).
Proof.
  intros Hr Hc Hw. apply column_word_inv in Hw as (b & f & Hb & Hk & <-).
  unfold enable_pixel, num_rows, num_cols.
  unfold bind at 1, gets. unfold bind at 1.
  rewrite (proj2 (Z.ltb_lt _ _) (proj2 Hr)), (proj2 (Z.ltb_lt _ _) Hc). cbn [andb].
  erewrite bind_returns by (eapply recconfig_get_ok; eassumption).
  unfold bind at 1, lift_outcome, py_shiftl.
  rewrite (proj2 (Z.ltb_ge _ _) (proj1 Hr)).
  rewrite (proj1 (pixel_mask row (proj1 Hr))).
  eapply store_value_ok; eassumption.
Qed.

Lemma disable_pixel_ok (col row w : Z) (self : Asic) :
  0 <= row < _num_rows self -> col < _num_cols self ->
  column_word col self = Some w ->
  disable_pixel col row self
  = (Returns tt, assign_value "recconfig" (col_key col) (Z.lor w (2 ^ (row + 1))) self).
Proof.
  intros Hr Hc Hw. apply column_word_inv in Hw as (b & f & Hb & Hk & <-).
  unfold disable_pixel, num_rows, num_cols.
  unfold bind at 1, gets. unfold bind at 1.
  rewrite (proj2 (Z.ltb_lt _ _) (proj2 Hr)), (proj2 (Z.ltb_lt _ _) Hc). cbn [andb].
  erewrite bind_returns by (eapply recconfig_get_ok; eassumption).
  unfold bind at 1, lift_outcome, py_shiftl.
  rewrite (proj2 (Z.ltb_ge _ _) (proj1 Hr)).
  rewrite (proj1 (pixel_mask row (proj1 Hr))).
  eapply store_value_ok; eassumption.
Qed.

(** Inside the row range [get_pixel] answers whether bit [row+1] is clear. *)
Lemma get_pixel_ok (col row w : Z) (self : Asic) :
  0 <= row < _num_rows self ->
  column_word col self = Some w ->
  get_pixel col row self = (Returns (Some (negb (Z.testbit w (row + 1)))), self).
Proof.
  intros Hr Hw. apply column_word_inv in Hw as (b & f & Hb & Hk & <-).
  unfold get_pixel, num_rows. unfold bind at 1, gets.
  rewrite (proj2 (Z.ltb_lt _ _) (proj2 Hr)).
  erewrite bind_returns by (eapply recconfig_get_ok; eassumption).
  unfold bind at 1, lift_outcome, py_shiftl.
  destruct (Z.ltb_spec (row + 1) 0); [lia|].
  rewrite (proj2 (pixel_mask row (proj1 Hr))), land_pow2 by lia.
  assert (Hpos : 0 < 2 ^ (row + 1)) by (apply Z.pow_pos_nonneg; lia).
  destruct (Z.testbit (value f) (row + 1)); cbn [negb].
  - destruct (Z.eqb_spec (2 ^ (row + 1)) 0); [lia | reflexivity].
  - reflexivity.
Qed.

(** C4 (amended). Inside the geometry and with the column word present,
    [enable_pixel] followed by [disable_pixel] leaves the column word equal to
    its value before [enable_pixel] with bit [row+1] set; this is the value
    before exactly when that bit was set (the pixel was disabled) before.
    [get_pixel] answers true right after [enable_pixel] and false right after
    [disable_pixel]. *)
Theorem enable_then_disable_pixel (self : Asic) (col row w : Z) :
  0 <= col < _num_cols self ->
  0 <= row < _num_rows self ->
  column_word col self = Some w ->
  exists s1 s2,
    enable_pixel col row self = (Returns tt, s1)
    /\ get_pixel col row s1 = (Returns (Some true), s1)
    /\ disable_pixel col row s1 = (Returns tt, s2)
    /\ get_pixel col row s2 = (Returns (Some false), s2)
    /\ column_word col s2 = Some (Z.lor w (2 ^ (row + 1)))
    /\ (column_word col s2 = Some w <-> Z.testbit w (row + 1) = true).
Proof.
  intros Hc Hr Hw.
  set (w1 := Z.land w (Z.lnot (2 ^ (row + 1)))).
  set (s1 := assign_value "recconfig" (col_key col) w1 self).
  set (s2 := assign_value "recconfig" (col_key col) (Z.lor w1 (2 ^ (row + 1))) s1).
  destruct (assign_value_geometry "recconfig" (col_key col) w1 self) as (Hr1 & Hc1 & _).
  destruct (assign_value_geometry "recconfig" (col_key col) (Z.lor w1 (2 ^ (row + 1))) s1)
    as (Hr2 & Hc2 & _).
  fold s1 in Hr1, Hc1. fold s2 in Hr2, Hc2.
  assert (Hw1 : column_word col s1 = Some w1)
    by (eapply column_word_assign_same; eassumption).
  assert (Hw2 : column_word col s2 = Some (Z.lor w1 (2 ^ (row + 1))))
    by (eapply column_word_assign_same; eassumption).
  assert (Hset : Z.lor w1 (2 ^ (row + 1)) = Z.lor w (2 ^ (row + 1)))
    by (apply clear_then_set; lia).
  exists s1, s2. repeat split.
  - apply enable_pixel_ok; [assumption | lia | assumption].
  - rewrite (get_pixel_ok col row w1 s1) by (rewrite ?Hr1; assumption).
    unfold w1. now rewrite testbit_clear by lia.
  - apply disable_pixel_ok; rewrite ?Hr1, ?Hc1; [assumption | lia | assumption].
  - rewrite (get_pixel_ok col row _ s2 ltac:(rewrite Hr2, Hr1; assumption) Hw2).
    now rewrite testbit_set by lia.
  - now rewrite Hw2, Hset.
  - rewrite Hw2, Hset. intros [= H]. apply set_is_identity_iff in H; [assumption | lia].
  - rewrite Hw2, Hset. intros H. f_equal. apply set_is_identity_iff; [lia | assumption].
Qed.

Lemma enable_then_disable_pixel_witness :
  exists s1 s2,
    enable_pixel 3 0 fixture_asic = (Returns tt, s1)
    /\ get_pixel 3 0 s1 = (Returns (Some true), s1)
    /\ disable_pixel 3 0 s1 = (Returns tt, s2)
    /\ get_pixel 3 0 s2 = (Returns (Some false), s2)
    /\ column_word 3 s2 = Some (Z.lor RECCONFIG_DEFAULT (2 ^ (0 + 1)))
    /\ (column_word 3 s2 = Some RECCONFIG_DEFAULT
        <-> Z.testbit RECCONFIG_DEFAULT (0 + 1) = true).
Proof.
  apply (enable_then_disable_pixel fixture_asic 3 0 RECCONFIG_DEFAULT);
    [cbn; lia | cbn; lia | reflexivity].
Defined.

(** C4, as first stated, fails: on the fixture with pixel (3, 0) already
    enabled, [enable_pixel 3 0] then [disable_pixel 3 0] both return and leave
    a column word that differs from the one before [enable_pixel]. *)
Lemma enable_then_disable_pixel_not_restoring :
  0 <= 3 < _num_cols fixture_pixel_on
  /\ 0 <= 0 < _num_rows fixture_pixel_on
  /\ column_word 3 fixture_pixel_on = Some 68719476732
  /\ exists s1 s2,
       enable_pixel 3 0 fixture_pixel_on = (Returns tt, s1)
       /\ disable_pixel 3 0 s1 = (Returns tt, s2)
       /\ column_word 3 s2 = Some 68719476734
       /\ column_word 3 s2 <> column_word 3 fixture_pixel_on.
Proof.
  split; [vm_compute; split; [discriminate | reflexivity]|].
  split; [vm_compute; split; [discriminate | reflexivity]|].
  split; [reflexivity|].
  exists (snd (enable_pixel 3 0 fixture_pixel_on)).
  exists (snd (disable_pixel 3 0 (snd (enable_pixel 3 0 fixture_pixel_on)))).
  repeat split; try (vm_compute; reflexivity).
  vm_compute. discriminate.
Qed.

(** ** Pixel operations outside the geometry *)

Ltac guard_fails :=
  unfold bind, num_rows, num_cols, gets;
  repeat match goal with
         | |- context [?a <? ?b] => destruct (Z.ltb_spec a b); [try lia|]
         end;
  cbn [andb]; rewrite ?andb_false_r; reflexivity.

(** C5 (amended). An index refused by the guard of the operation leaves the
    [Asic] object as it was (the config, and the log, to which nothing is
    added) and raises nothing: [enable_pixel] and [disable_pixel] with
    [row >= num_rows] or [col >= num_cols], [enable_inj_row],
    [disable_inj_row] and [get_pixel] with [row >= num_rows],
    [enable_inj_col] and [disable_inj_col] with [col >= num_cols]. *)
Theorem out_of_range_is_noop (self : Asic) (col row : Z) :
  (_num_rows self <= row \/ _num_cols self <= col ->
     enable_pixel col row self = (Returns tt, self)
     /\ disable_pixel col row self = (Returns tt, self))
  /\ (_num_rows self <= row ->
     enable_inj_row row self = (Returns tt, self)
     /\ disable_inj_row row self = (Returns tt, self)
     /\ get_pixel col row self = (Returns None, self))
  /\ (_num_cols self <= col ->
     enable_inj_col col self = (Returns tt, self)
     /\ disable_inj_col col self = (Returns tt, self)).
Proof.
  split; [|split].
  - intros H. split.
    + unfold enable_pixel. guard_fails.
    + unfold disable_pixel. guard_fails.
  - intros H. repeat split.
    + unfold enable_inj_row. guard_fails.
    + unfold disable_inj_row. guard_fails.
    + unfold get_pixel. guard_fails.
  - intros H. split.
    + unfold enable_inj_col. guard_fails.
    + unfold disable_inj_col. guard_fails.
Qed.

Lemma out_of_range_is_noop_witness :
  (enable_pixel 35 35 fixture_asic = (Returns tt, fixture_asic)
   /\ disable_pixel 35 35 fixture_asic = (Returns tt, fixture_asic))
  /\ (enable_inj_row 35 fixture_asic = (Returns tt, fixture_asic)
      /\ disable_inj_row 35 fixture_asic = (Returns tt, fixture_asic)
      /\ get_pixel 35 35 fixture_asic = (Returns None, fixture_asic))
  /\ (enable_inj_col 35 fixture_asic = (Returns tt, fixture_asic)
      /\ disable_inj_col 35 fixture_asic = (Returns tt, fixture_asic)).
Proof.
  destruct (out_of_range_is_noop fixture_asic 35 35) as (H1 & H2 & H3).
  split; [apply H1; left; cbn; lia|].
  split; [apply H2; cbn; lia | apply H3; cbn; lia].
Defined.

(** C5, as first stated, fails: on the fixture (35 rows, 35 columns, empty
    log) [enable_pixel 0 35] returns with nothing logged, and the two
    operations that do not check the column raise on column 35. *)
Lemma out_of_range_records_no_warning :
  _num_rows fixture_asic <= 35
  /\ _num_cols fixture_asic <= 35
  /\ enable_pixel 0 35 fixture_asic = (Returns tt, fixture_asic)
  /\ logger (snd (enable_pixel 0 35 fixture_asic)) = []
  /\ fst (enable_ampout_col 35 fixture_asic) = Raises (KeyError "col35")
  /\ fst (get_pixel 35 0 fixture_asic) = Raises TypeError.
Proof.
  split; [cbn; lia|]. split; [cbn; lia|].
  repeat split; vm_compute; reflexivity.
Qed.

(** C10. For a row at or past [num_rows], and any column, [get_pixel]
    returns Python's [None] (no boolean), raises nothing and leaves the object
    as it was. *)
Theorem get_pixel_row_out_of_range (self : Asic) (col row : Z) :
  _num_rows self <= row ->
  get_pixel col row self = (Returns None, self).
Proof.
  intros H. unfold get_pixel, num_rows. unfold bind at 1, gets.
  now rewrite (proj2 (Z.ltb_ge _ _) H).
Qed.

Lemma get_pixel_row_out_of_range_witness :
  get_pixel 3 35 fixture_asic = (Returns None, fixture_asic).
Proof.
  apply (get_pixel_row_out_of_range fixture_asic 3 35). cbn. lia.
Defined.

(** ** The analog mux: [enable_ampout_col] *)

Lemma recconfig_update_compose (G1 G2 : Block -> Block) (self : Asic) :
  recconfig_update G2 (recconfig_update G1 self)
  = recconfig_update (fun b => G2 (G1 b)) self.
Proof.
  unfold recconfig_update.
  destruct (asic_config self) as [cfg|] eqn:E; [|now rewrite E].
  cbn [asic_config with_config _num_rows _num_cols logger stdout].
  unfold with_config. cbn. now rewrite dict_adjust_compose.
Qed.

Lemma recconfig_update_ext (G G' : Block -> Block) (self : Asic) (b : Block) :
  recconfig self = Some b -> G b = G' b ->
  recconfig_update G self = recconfig_update G' self.
Proof.
  unfold recconfig, recconfig_update.
  destruct (asic_config self) as [cfg|]; [|discriminate].
  intros Hb HG. f_equal. eapply dict_adjust_ext; eassumption.
Qed.

Lemma recconfig_of_update (G : Block -> Block) (self : Asic) :
  recconfig (recconfig_update G self) = option_map G (recconfig self).
Proof.
  unfold recconfig, recconfig_update.
  destruct (asic_config self) as [cfg|] eqn:E; [|now rewrite E].
  cbn [asic_config with_config]. apply dict_get_adjust_same.
Qed.

Lemma dict_adjust_id {V} (k : string) (d : dict V) : dict_adjust (fun v => v) k d = d.
Proof.
  induction d as [|[k' v] d IH]; [reflexivity|].
  cbn [dict_adjust]. destruct (String.eqb k k'); [reflexivity | now rewrite IH].
Qed.

Lemma recconfig_update_id (self : Asic) : recconfig_update (fun b => b) self = self.
Proof.
  destruct self as [nr nc [cfg|] lg out]; [|reflexivity].
  unfold recconfig_update, with_config. cbn. now rewrite dict_adjust_id.
Qed.


Lemma dict_get_key_in {V} (k : string) (d : dict V) :
  In k (map fst d) -> dict_get k d <> None.
Proof.
  induction d as [|[k' v] d IH]; [contradiction|].
  cbn [map fst dict_get]. intros [->|Hin].
  - now rewrite String.eqb_refl.
  - destruct (String.eqb k k'); [discriminate | now apply IH].
Qed.

Lemma dict_get_adjust_present {V} (g : V -> V) (k k' : string) (d : dict V) :
  dict_get k' d <> None -> dict_get k' (dict_adjust g k d) <> None.
Proof.
  intros H. destruct (String.eqb_spec k' k) as [->|Hne].
  - rewrite dict_get_adjust_same. now destruct (dict_get k d).
  - now rewrite dict_get_adjust_other.
Qed.

(** One turn of the loop. *)
Lemma ampout_clear_step (i : Z) (self : Asic) (b : Block) :
  recconfig self = Some b -> dict_get (col_key i) b <> None ->
  (w <- recconfig_item (col_key i) ;;
   store_value "recconfig" (col_key i) (Z.land w AMPOUT_OFF)) self
  = (Returns tt, recconfig_update (dict_adjust ampout_off (col_key i)) self).
Proof.
  intros Hb Hk. destruct (dict_get (col_key i) b) as [f|] eqn:E; [clear Hk | contradiction].
  erewrite bind_returns by (eapply recconfig_item_ok; eassumption).
  erewrite store_value_ok by eassumption. f_equal.
  change (assign_value "recconfig" (col_key i) (Z.land (value f) AMPOUT_OFF) self)
    with (recconfig_update
            (dict_adjust (set_value (Z.land (value f) AMPOUT_OFF)) (col_key i)) self).
  eapply recconfig_update_ext; [eassumption|].
  eapply dict_adjust_ext; [eassumption | reflexivity].
Qed.

Lemma ampout_clear_loop (l : list Z) (self : Asic) (b : Block) :
  recconfig self = Some b ->
  (forall i, In i l -> dict_get (col_key i) b <> None) ->
  for_each l (fun i =>
    w <- recconfig_item (col_key i) ;;
    store_value "recconfig" (col_key i) (Z.land w AMPOUT_OFF)) self
  = (Returns tt, recconfig_update (ampout_cleared l) self).
Proof.
  unfold for_each. revert self b.
  induction l as [|i l IH]; intros self b Hb Hl.
  - cbn [foldM]. unfold ret, ampout_cleared. cbn [fold_left].
    now rewrite recconfig_update_id.
  - cbn [foldM].
    erewrite bind_returns by (eapply ampout_clear_step; [eassumption | apply Hl; now left]).
    erewrite IH.
    + now rewrite recconfig_update_compose.
    + rewrite recconfig_of_update, Hb. reflexivity.
    + intros j Hj. apply dict_get_adjust_present. apply Hl. now right.
Qed.

Lemma ampout_off_idem (f : Field) : ampout_off (ampout_off f) = ampout_off f.
Proof.
  unfold ampout_off, set_value. cbn [width value]. f_equal.
  now rewrite <- Z.land_assoc, Z.land_diag.
Qed.



Lemma ampout_off_not_selected (f : Field) : ampout_selected (value (ampout_off f)) = false.
Proof.
  unfold ampout_selected, ampout_off, set_value. cbn [value].
  rewrite Z.land_spec. change (Z.testbit AMPOUT_OFF 37) with false. apply andb_false_r.
Qed.




Lemma ampout_cleared_get (l : list Z) (b : Block) (k : string) :
  dict_get k (ampout_cleared l b)
  = option_map (fun f => if existsb (String.eqb k) (map col_key l) then ampout_off f else f)
               (dict_get k b).
Proof.
  unfold ampout_cleared. revert b.
  induction l as [|i l IH]; intros b.
  - cbn. now destruct (dict_get k b).
  - cbn [fold_left map existsb]. rewrite IH.
    destruct (String.eqb_spec k (col_key i)) as [->|Hne].
    + rewrite dict_get_adjust_same. cbn [orb].
      destruct (dict_get (col_key i) b) as [f|]; [|reflexivity]. cbn [option_map].
      destruct (existsb _ _); [now rewrite ampout_off_idem | reflexivity].
    + now rewrite dict_get_adjust_other by assumption.
Qed.


Lemma ampout_block_get (n col : Z) (b : Block) (k : string) :
  dict_get k (ampout_block n col b) = option_map (ampout_field n col k) (dict_get k b).
Proof.
  unfold ampout_block, ampout_field.
  destruct (String.eqb_spec (col_key col) k) as [<-|Hne].
  - rewrite dict_get_adjust_same, ampout_cleared_get.
    now destruct (dict_get (col_key col) b).
  - rewrite dict_get_adjust_other by congruence.
    apply ampout_cleared_get.
Qed.

(** ** The geometry of the receiver block *)

Lemma existsb_eqb_iff (k : string) (l : list string) :
  existsb (String.eqb k) l = true <-> In k l.
Proof.
  rewrite existsb_exists. split.
  - intros (x & Hin & E). apply String.eqb_eq in E. now subst.
  - intros H. exists k. split; [assumption | apply String.eqb_refl].
Qed.

Lemma nodupb_NoDup (l : list string) : nodupb l = true -> NoDup l.
Proof.
  induction l as [|k l IH]; [constructor|].
  cbn [nodupb]. intros H. apply andb_true_iff in H as [Hk Hl].
  constructor; [|now apply IH].
  intros Hin. apply existsb_eqb_iff in Hin. now rewrite Hin in Hk.
Qed.

Lemma subsetb_incl (l1 l2 : list string) : subsetb l1 l2 = true -> incl l1 l2.
Proof.
  unfold subsetb. rewrite forallb_forall. intros H k Hk.
  apply existsb_eqb_iff. now apply H.
Qed.

Lemma matches_geometry_inv (self : Asic) :
  recconfig_matches_geometry self = true ->
  exists b, recconfig self = Some b
            /\ NoDup (map fst b)
            /\ incl (map fst b) (map col_key (range (_num_cols self)))
            /\ incl (map col_key (range (_num_cols self))) (map fst b).
Proof.
  unfold recconfig_matches_geometry.
  destruct (recconfig self) as [b|]; [|discriminate].
  rewrite !andb_true_iff. intros [[H1 H2] H3]. exists b.
  auto using nodupb_NoDup, subsetb_incl.
Qed.

Lemma enable_ampout_col_ok (col : Z) (self : Asic) (b : Block) :
  recconfig self = Some b ->
  incl (map col_key (range (_num_cols self))) (map fst b) ->
  dict_get (col_key col) b <> None ->
  enable_ampout_col col self
  = (Returns tt, recconfig_update (ampout_block (_num_cols self) col) self).
Proof.
  intros Hb Hkeys Hcol.
  unfold enable_ampout_col, num_cols. unfold bind at 1, gets.
  erewrite bind_returns; cycle 1.
  { eapply ampout_clear_loop; [eassumption|].
    intros i Hi. apply dict_get_key_in. apply Hkeys. now apply in_map. }
  set (l := range (_num_cols self)).
  set (s' := recconfig_update (ampout_cleared l) self).
  assert (Hb' : recconfig s' = Some (ampout_cleared l b))
    by (unfold s'; now rewrite recconfig_of_update, Hb).
  destruct (dict_get (col_key col) (ampout_cleared l b)) as [f'|] eqn:E.
  2:{ exfalso. rewrite ampout_cleared_get in E.
      destruct (dict_get (col_key col) b); [discriminate | contradiction]. }
  erewrite bind_returns by (eapply recconfig_item_ok; eassumption).
  erewrite store_value_ok by eassumption. f_equal.
  change (assign_value "recconfig" (col_key col) (Z.lor (value f') AMPOUT_BIT) s')
    with (recconfig_update
            (dict_adjust (set_value (Z.lor (value f') AMPOUT_BIT)) (col_key col)) s').
  rewrite (recconfig_update_ext
             (dict_adjust (set_value (Z.lor (value f') AMPOUT_BIT)) (col_key col))
             (dict_adjust ampout_on (col_key col)) s' _ Hb'
             (dict_adjust_ext (set_value (Z.lor (value f') AMPOUT_BIT)) ampout_on
                              _ _ _ E eq_refl)).
  unfold s'. now rewrite recconfig_update_compose.
Qed.













(** ** Run control *)

Section RunControlFacts.

Variable append_None : BitArray -> outcome BitArray.
Variable board : list nexys_call -> nexys_call -> outcome (list Byte.byte).

Lemma test_io_outcome (self : astropixRun) :
  fst (_test_io board self)
  = (if all_answered board (nexys self) test_io_calls then Returns tt
     else Raises (RuntimeError "Could not read or write from astropix!")).
Proof.
  unfold _test_io, try_except, bind, nexys_do, test_io_calls, all_answered, raise, ret.
  cbn [nexys set_nexys].
  destruct (board (nexys self) _); [|reflexivity].
  destruct (board (_ :: nexys self) _); [|reflexivity].
  destruct (board (_ :: _ :: nexys self) _); [|reflexivity].
  destruct (board (_ :: _ :: _ :: nexys self) _); reflexivity.
Qed.

(** C9 (amended). The self-test writes [0x55] to register [0x09], reads the
    register, and resets the readout state; it returns exactly when none of
    the four calls raises, whatever bytes the read answers, and raises the
    [RuntimeError] otherwise.  Each call is made at most once (nothing is
    retried), and in [__init__] the error leaves the constructor. *)
Theorem test_io_checks_calls_only (self : astropixRun) :
  fst (_test_io board self)
  = (if all_answered board (nexys self) test_io_calls then Returns tt
     else Raises (RuntimeError "Could not read or write from astropix!"))
  /\ (exists k, (k <= 4)%nat
        /\ nexys (snd (_test_io board self)) = rev (firstn k test_io_calls) ++ nexys self)
  /\ (forall version inject,
        fst (astropixRun_init board version inject self)
        = match board (nexys self) autoopen with
          | Raises e => Raises e
          | Returns _ =>
              if all_answered board (autoopen :: nexys self) test_io_calls then Returns tt
              else Raises (RuntimeError "Could not read or write from astropix!")
          end).
Proof.
  split; [|split].
  - apply test_io_outcome.
  - unfold _test_io, try_except, bind, nexys_do, test_io_calls, raise, ret.
    cbn [nexys set_nexys].
    destruct (board (nexys self) _); [|exists 1%nat; split; [lia | reflexivity]].
    destruct (board (_ :: nexys self) _); [|exists 2%nat; split; [lia | reflexivity]].
    destruct (board (_ :: _ :: nexys self) _); [|exists 3%nat; split; [lia | reflexivity]].
    destruct (board (_ :: _ :: _ :: nexys self) _); exists 4%nat; split; (lia || reflexivity).
  - intros version inject.
    unfold astropixRun_init.
    unfold bind at 1, modify at 1. unfold bind at 1, nexys_do at 1.
    cbn [nexys set_asic_start].
    destruct (board (nexys self) autoopen) as [bytes|e0]; [|reflexivity].
    unfold bind at 1, log at 1, modify at 1. unfold bind at 1.
    match goal with
    | |- context [_test_io board ?s] =>
        pose proof (test_io_outcome s) as H; destruct (_test_io board s) as [[u|e1] s1]
    end; cbn [fst nexys set_nexys] in H.
    + rewrite <- H. destruct u. reflexivity.
    + rewrite <- H. reflexivity.
Qed.

Lemma update_asic_config_before_init (bias_cfg idac_cfg vdac_cfg : option (dict Z))
      (self : astropixRun) :
  _asic_start self = false ->
  update_asic_config append_None board bias_cfg idac_cfg vdac_cfg self
  = (Raises (RuntimeError "Asic has not been initalized"), self).
Proof.
  intros H. unfold update_asic_config, bind, gets. now rewrite H.
Qed.

Lemma write_overrides_nexys (blk : string) (cfg : option (dict Z)) (self : astropixRun) :
  nexys (snd (write_overrides blk cfg self)) = nexys self.
Proof.
  destruct cfg as [d|]; [|reflexivity].
  cbn [write_overrides]. unfold for_each. revert self.
  induction d as [|[k v] d IH]; intros self; [reflexivity|].
  cbn [foldM fst snd]. unfold bind at 1, on_asic.
  destruct (asic self) as [a|]; [|reflexivity].
  destruct (store_value blk k v a) as [[[]|e] a']; [|reflexivity].
  now rewrite IH.
Qed.

(** Without a voltage-DAC mapping nothing is sent to the board, whatever the
    other two mappings hold. *)
Lemma update_asic_config_without_vdac (bias_cfg idac_cfg : option (dict Z))
      (self : astropixRun) :
  nexys (snd (update_asic_config append_None board bias_cfg idac_cfg None self))
  = nexys self.
Proof.
  unfold update_asic_config. unfold bind at 1, gets.
  destruct (_asic_start self); [|reflexivity].
  unfold bind at 1.
  pose proof (write_overrides_nexys "biasconfig" bias_cfg self) as H1.
  destruct (write_overrides "biasconfig" bias_cfg self) as [[u|e] s1]; cbn [snd] in *;
    [|assumption].
  unfold bind at 1.
  pose proof (write_overrides_nexys "idacs" idac_cfg s1) as H2.
  destruct (write_overrides "idacs" idac_cfg s1) as [[u'|e] s2]; cbn [snd] in *;
    [|congruence].
  unfold log, modify. cbn [snd nexys]. congruence.
Qed.

End RunControlFacts.

(** C9, as first stated, fails: the board answers [0x00] when register
    [0x09] is read back after [0x55] was written, and the self-test
    returns. *)
Lemma test_io_accepts_mismatch :
  board_reading Byte.x00 [write_register 0x09 0x55 true] (read_register 0x09)
  = Returns [Byte.x00]
  /\ Byte.to_N Byte.x00 <> 0x55%N
  /\ fst (_test_io (board_reading Byte.x00) blank_run) = Returns tt.
Proof.
  split; [reflexivity|]. split; [vm_compute; discriminate | reflexivity].
Qed.

(** C6, at the failing input: after initialization, a bias mapping alone is
    written into the model, the method logs that it got no arguments and
    returns, and the board has received nothing. *)
Lemma update_asic_config_bias_only_no_push :
  _asic_start fixture_run = true
  /\ run_value "biasconfig" "DisHiDR" fixture_run = Some 0
  /\ exists run',
       update_asic_config append_None_nothing (board_reading Byte.x55)
                          (Some [("DisHiDR", 1)]) None None fixture_run
       = (Returns tt, run')
       /\ run_value "biasconfig" "DisHiDR" run' = Some 1
       /\ nexys run' = nexys fixture_run
       /\ run_log run'
          = [(INFO, "update_asic_config() got no arguments, nothing to do.")].
Proof.
  split; [reflexivity|]. split; [reflexivity|].
  eexists. split; [vm_compute; reflexivity|].
  repeat split.
Qed.

(** With a voltage-DAC mapping the same call resets the chip and writes the
    vector once. *)
Lemma update_asic_config_with_vdac_pushes_once :
  exists run' asicbits,
    update_asic_config append_None_nothing (board_reading Byte.x55)
                       (Some [("DisHiDR", 1)]) None (Some [("thpix", 600)]) fixture_run
    = (Returns tt, run')
    /\ run_value "biasconfig" "DisHiDR" run' = Some 1
    /\ run_value "vdacs" "thpix" run' = Some 600
    /\ nexys run' = [write asicbits; chip_reset].
Proof.
  eexists. eexists. split; [vm_compute; reflexivity|].
  repeat split.
Qed.

(** C8, at the failing input: two current-DAC keys are given, both are
    classified, and only the one classified last reaches the model. *)
Lemma asic_init_keeps_last_dac_only :
  run_value "idacs" "blres" (set_asic (Some fixture_asic) fixture_opened) = Some 0
  /\ exists run',
       asic_init append_None_nothing (board_reading Byte.x55) fixture_asic
                 (Some [("blres", 10); ("vn1", 30)]) None None fixture_opened
       = (Returns tt, run')
       /\ run_value "idacs" "blres" run' = Some 0
       /\ run_value "idacs" "vn1" run' = Some 30.
Proof.
  split; [reflexivity|].
  eexists. split; [vm_compute; reflexivity|].
  split; reflexivity.
Qed.

(** A key of neither group ends [asic_init] on the spot: no DAC value is
    written, and nothing at all is sent to the chip. *)
Lemma asic_init_bad_dac_key_aborts :
  exists run',
    asic_init append_None_nothing (board_reading Byte.x55) fixture_asic
              (Some [("blres", 10); ("nope", 1)]) None None fixture_opened
    = (Returns tt, run')
    /\ asic run' = Some fixture_asic
    /\ nexys run' = nexys fixture_opened
    /\ hd_error (run_log run')
       = Some (WARNING,
               "Sent bad DAC value {'blres': 10, 'nope': 1} - not a DAC setting. Aborting DAC update").
Proof.
  eexists. split; [vm_compute; reflexivity|].
  repeat split.
Qed.

(** ** Pixel operations: errors and edges *)

Lemma recconfig_get_absent (k : string) (self : Asic) (b : Block) :
  recconfig self = Some b -> dict_get k b = None ->
  recconfig_get k self = (Raises TypeError, self).
Proof.
  intros Hb Hk. unfold recconfig_get.
  erewrite bind_returns by (apply config_block_recconfig; eassumption).
  now rewrite Hk.
Qed.

Ltac enter_guard :=
  unfold bind at 1, num_rows, num_cols, gets; cbn beta iota;
  repeat match goal with
         | |- context [bind (fun s => (Returns (?f s), s)) _ _] =>
             unfold bind at 1; cbn beta iota
         end;
  repeat match goal with
         | H : ?a < ?b |- context [?a <? ?b] => rewrite (proj2 (Z.ltb_lt a b) H)
         end;
  cbn [andb].

(** X1. The integer default handed to [get] is never of use: when the
    receiver block is there but holds no word for column [x], every guarded
    operation addressing that column inside its bounds raises [TypeError]
    and leaves the object as it was. *)
Theorem absent_column_word_raises (self : Asic) (b : Block) (x : Z) :
  recconfig self = Some b ->
  dict_get (col_key x) b = None ->
  (forall row, row < _num_rows self -> x < _num_cols self ->
     enable_pixel x row self = (Raises TypeError, self)
     /\ disable_pixel x row self = (Raises TypeError, self))
  /\ (forall row, row < _num_rows self ->
        get_pixel x row self = (Raises TypeError, self))
  /\ (x < _num_cols self ->
        enable_inj_col x self = (Raises TypeError, self)
        /\ disable_inj_col x self = (Raises TypeError, self))
  /\ (x < _num_rows self ->
        enable_inj_row x self = (Raises TypeError, self)
        /\ disable_inj_row x self = (Raises TypeError, self)).
Proof.
  intros Hb Hk.
  pose proof (recconfig_get_absent _ _ _ Hb Hk) as Hget.
  repeat split; intros.
  - unfold enable_pixel. enter_guard. now apply bind_raises.
  - unfold disable_pixel. enter_guard. now apply bind_raises.
  - unfold get_pixel. enter_guard. now apply bind_raises.
  - unfold enable_inj_col. enter_guard. now apply bind_raises.
  - unfold disable_inj_col. enter_guard. now apply bind_raises.
  - unfold enable_inj_row. enter_guard. now apply bind_raises.
  - unfold disable_inj_row. enter_guard. now apply bind_raises.
Qed.

Lemma absent_column_word_raises_witness :
  let self := set_num_rows 64 (set_num_cols 64 fixture_asic) in
  (enable_pixel 40 0 self = (Raises TypeError, self)
   /\ disable_pixel 40 0 self = (Raises TypeError, self))
  /\ get_pixel 40 0 self = (Raises TypeError, self)
  /\ (enable_inj_col 40 self = (Raises TypeError, self)
      /\ disable_inj_col 40 self = (Raises TypeError, self))
  /\ (enable_inj_row 40 self = (Raises TypeError, self)
      /\ disable_inj_row 40 self = (Raises TypeError, self)).
Proof.
  intros self.
  destruct (absent_column_word_raises self (fixture_recconfig 35) 40 eq_refl eq_refl)
    as (H1 & H2 & H3 & H4).
  split; [apply H1; cbn; lia|].
  split; [apply H2; cbn; lia|].
  split; [apply H3; cbn; lia | apply H4; cbn; lia].
Defined.

(** X2. A negative row passes the guard [row < num_rows]: with the column
    word present, [enable_pixel] and [disable_pixel] then raise [ValueError]
    (negative shift count) and change nothing; so does [get_pixel] below row
    [-1], while [get_pixel col (-1)] answers from bit 0, the row-injection
    bit. *)
Theorem negative_row_behaviour (self : Asic) (col row w : Z) :
  row < 0 -> row < _num_rows self ->
  column_word col self = Some w ->
  (col < _num_cols self ->
     enable_pixel col row self = (Raises ValueError, self)
     /\ disable_pixel col row self = (Raises ValueError, self))
  /\ (row < -1 -> get_pixel col row self = (Raises ValueError, self))
  /\ (row = -1 -> get_pixel col row self = (Returns (Some (negb (Z.testbit w 0))), self)).
Proof.
  intros Hneg Hr Hw. apply column_word_inv in Hw as (b & f & Hb & Hk & <-).
  pose proof (recconfig_get_ok _ _ _ _ Hb Hk) as Hget.
  assert (Hsh : py_shiftl 2 row = Raises ValueError).
  { unfold py_shiftl. now rewrite (proj2 (Z.ltb_lt _ _) Hneg). }
  repeat split; intros.
  - unfold enable_pixel. enter_guard. erewrite bind_returns by eassumption.
    unfold bind, lift_outcome. now rewrite Hsh.
  - unfold disable_pixel. enter_guard. erewrite bind_returns by eassumption.
    unfold bind, lift_outcome. now rewrite Hsh.
  - unfold get_pixel. enter_guard. erewrite bind_returns by eassumption.
    unfold bind, lift_outcome, py_shiftl.
    destruct (Z.ltb_spec (row + 1) 0); [reflexivity | lia].
  - subst row. unfold get_pixel. enter_guard. erewrite bind_returns by eassumption.
    unfold bind, lift_outcome, py_shiftl.
    change (-1 + 1) with 0. change (0 <? 0) with false. cbn iota.
    change (Z.shiftl 1 0) with (2 ^ 0).
    rewrite land_pow2 by lia.
    destruct (Z.testbit (value f) 0); reflexivity.
Qed.

Lemma negative_row_behaviour_witness :
  (enable_pixel 3 (-2) fixture_asic = (Raises ValueError, fixture_asic)
   /\ disable_pixel 3 (-2) fixture_asic = (Raises ValueError, fixture_asic))
  /\ get_pixel 3 (-2) fixture_asic = (Raises ValueError, fixture_asic)
  /\ get_pixel 3 (-1) fixture_asic
     = (Returns (Some (negb (Z.testbit RECCONFIG_DEFAULT 0))), fixture_asic).
Proof.
  destruct (negative_row_behaviour fixture_asic 3 (-2) RECCONFIG_DEFAULT)
    as (H1 & H2 & _); [lia | cbn; lia | reflexivity |].
  destruct (negative_row_behaviour fixture_asic 3 (-1) RECCONFIG_DEFAULT)
    as (_ & _ & H3); [lia | cbn; lia | reflexivity |].
  split; [apply H1; cbn; lia|]. split; [apply H2; lia | apply H3; reflexivity].
Defined.

(** ** Pixel operations: what they leave alone, how they compose *)

Lemma assign_value_twice (k : string) (v1 v2 : Z) (self : Asic) (b : Block) (f : Field) :
  recconfig self = Some b -> dict_get k b = Some f ->
  assign_value "recconfig" k v2 (assign_value "recconfig" k v1 self)
  = assign_value "recconfig" k v2 self.
Proof.
  intros Hb Hk.
  change (recconfig_update (dict_adjust (set_value v2) k)
            (recconfig_update (dict_adjust (set_value v1) k) self)
          = recconfig_update (dict_adjust (set_value v2) k) self).
  rewrite recconfig_update_compose.
  apply (recconfig_update_ext _ _ self b Hb).
  rewrite dict_adjust_compose.
  eapply dict_adjust_ext; [eassumption | reflexivity].
Qed.

Lemma column_word_assign_other (col col' v : Z) (self : Asic) :
  col' <> col ->
  column_word col' (assign_value "recconfig" (col_key col) v self) = column_word col' self.
Proof.
  intros Hne. unfold column_word. rewrite recconfig_assign.
  destruct (recconfig self) as [b|]; [|reflexivity]. cbn [option_map].
  rewrite dict_get_adjust_other; [reflexivity|].
  intros E. apply col_key_inj in E. contradiction.
Qed.

(** What [get_pixel] answers, read off the geometry and the column word. *)
Lemma get_pixel_outcome (col row : Z) (self : Asic) (b : Block) :
  recconfig self = Some b ->
  fst (get_pixel col row self)
  = if row <? _num_rows self then
      match column_word col self with
      | Some w =>
          match py_shiftl 1 (row + 1) with
          | Returns m => Returns (Some (Z.land w m =? 0))
          | Raises e => Raises e
          end
      | None => Raises TypeError
      end
    else Returns None.
Proof.
  intros Hb. unfold get_pixel. unfold bind at 1, num_rows, gets.
  destruct (row <? _num_rows self); [|reflexivity].
  unfold column_word. rewrite Hb.
  destruct (dict_get (col_key col) b) as [f|] eqn:Hk.
  - erewrite bind_returns by (eapply recconfig_get_ok; eassumption).
    cbn [option_map]. unfold bind, lift_outcome.
    destruct (py_shiftl 1 (row + 1)); [|reflexivity].
    now destruct (Z.land (value f) a =? 0).
  - erewrite bind_raises by (eapply recconfig_get_absent; eassumption). reflexivity.
Qed.

Lemma get_pixel_same_bit (col col' row' w' v : Z) (self : Asic) (b : Block) :
  recconfig self = Some b ->
  0 <= row' ->
  (col' = col -> column_word col self = Some w'
                 /\ Z.testbit v (row' + 1) = Z.testbit w' (row' + 1)) ->
  dict_get (col_key col) b <> None ->
  fst (get_pixel col' row' (assign_value "recconfig" (col_key col) v self))
  = fst (get_pixel col' row' self).
Proof.
  intros Hb Hr' Hsame Hk.
  rewrite (get_pixel_outcome col' row' _ (dict_adjust (set_value v) (col_key col) b))
    by (now rewrite recconfig_assign, Hb).
  rewrite (get_pixel_outcome col' row' self b Hb).
  destruct (assign_value_geometry "recconfig" (col_key col) v self) as (-> & _).
  destruct (row' <? _num_rows self); [|reflexivity].
  destruct (Z.eq_dec col' col) as [->|Hne].
  - destruct (Hsame eq_refl) as [Hw Hbit].
    rewrite (column_word_assign_same col v w' self Hw), Hw.
    unfold py_shiftl. destruct (Z.ltb_spec (row' + 1) 0); [lia|].
    rewrite (proj2 (pixel_mask row' Hr')), !land_pow2, Hbit by lia. reflexivity.
  - now rewrite column_word_assign_other.
Qed.

(** X3. Inside the geometry, [enable_pixel] and [disable_pixel] change bit
    [row+1] of the word of column [col] and nothing else: every other bit of
    that word stays, and [get_pixel] answers for every other pixel what it
    answered before. *)
Theorem pixel_ops_touch_one_pixel (self : Asic) (col row w : Z) :
  0 <= row < _num_rows self -> col < _num_cols self ->
  column_word col self = Some w ->
  (exists w1 w2,
     column_word col (snd (enable_pixel col row self)) = Some w1
     /\ column_word col (snd (disable_pixel col row self)) = Some w2
     /\ forall i, 0 <= i -> i <> row + 1 ->
          Z.testbit w1 i = Z.testbit w i /\ Z.testbit w2 i = Z.testbit w i)
  /\ (forall col' row', 0 <= row' -> (col', row') <> (col, row) ->
        fst (get_pixel col' row' (snd (enable_pixel col row self)))
        = fst (get_pixel col' row' self)
        /\ fst (get_pixel col' row' (snd (disable_pixel col row self)))
           = fst (get_pixel col' row' self)).
Proof.
  intros Hr Hc Hw.
  rewrite (enable_pixel_ok col row w self Hr Hc Hw).
  rewrite (disable_pixel_ok col row w self Hr Hc Hw). cbn [snd].
  assert (Hbits : forall i, 0 <= i -> i <> row + 1 ->
            Z.testbit (Z.land w (Z.lnot (2 ^ (row + 1)))) i = Z.testbit w i
            /\ Z.testbit (Z.lor w (2 ^ (row + 1))) i = Z.testbit w i).
  { intros i Hi Hne.
    rewrite Z.land_spec, Z.lor_spec, Z.lnot_spec, Z.pow2_bits_eqb by lia.
    destruct (Z.eqb_spec (row + 1) i); [lia|]. cbn [negb].
    now rewrite andb_true_r, orb_false_r. }
  split.
  - exists (Z.land w (Z.lnot (2 ^ (row + 1)))), (Z.lor w (2 ^ (row + 1))).
    split; [eapply column_word_assign_same; eassumption|].
    split; [eapply column_word_assign_same; eassumption | exact Hbits].
  - intros col' row' Hr' Hne.
    pose proof Hw as Hw'. apply column_word_inv in Hw' as (b & f & Hb & Hk & _).
    assert (Hrow : col' = col -> row' + 1 <> row + 1).
    { intros -> E. apply Hne. f_equal. lia. }
    split; apply (get_pixel_same_bit col col' row' w _ self b Hb Hr');
      try (now rewrite Hk);
      intros E; (split; [assumption|]); apply Hbits; auto; lia.
Qed.

Lemma pixel_ops_touch_one_pixel_witness :
  (exists w1 w2,
     column_word 3 (snd (enable_pixel 3 0 fixture_asic)) = Some w1
     /\ column_word 3 (snd (disable_pixel 3 0 fixture_asic)) = Some w2
     /\ forall i, 0 <= i -> i <> 0 + 1 ->
          Z.testbit w1 i = Z.testbit RECCONFIG_DEFAULT i
          /\ Z.testbit w2 i = Z.testbit RECCONFIG_DEFAULT i)
  /\ (forall col' row', 0 <= row' -> (col', row') <> (3, 0) ->
        fst (get_pixel col' row' (snd (enable_pixel 3 0 fixture_asic)))
        = fst (get_pixel col' row' fixture_asic)
        /\ fst (get_pixel col' row' (snd (disable_pixel 3 0 fixture_asic)))
           = fst (get_pixel col' row' fixture_asic)).
Proof.
  apply (pixel_ops_touch_one_pixel fixture_asic 3 0 RECCONFIG_DEFAULT);
    [cbn; lia | cbn; lia | reflexivity].
Defined.

(** X4. On one pixel the later call decides: inside the geometry and with
    the column word present, [disable_pixel] after [enable_pixel] leaves the
    object that [disable_pixel] alone leaves, [enable_pixel] after
    [disable_pixel] the one that [enable_pixel] alone leaves, and each
    operation done twice is the operation done once. *)
Theorem later_pixel_call_decides (self : Asic) (col row w : Z) :
  0 <= row < _num_rows self -> col < _num_cols self ->
  column_word col self = Some w ->
  disable_pixel col row (snd (enable_pixel col row self)) = disable_pixel col row self
  /\ enable_pixel col row (snd (disable_pixel col row self)) = enable_pixel col row self
  /\ enable_pixel col row (snd (enable_pixel col row self)) = enable_pixel col row self
  /\ disable_pixel col row (snd (disable_pixel col row self)) = disable_pixel col row self.
Proof.
  intros Hr Hc Hw.
  pose proof Hw as Hw'. apply column_word_inv in Hw' as (b & f & Hb & Hk & _).
  rewrite (enable_pixel_ok col row w self Hr Hc Hw).
  rewrite (disable_pixel_ok col row w self Hr Hc Hw). cbn [snd].
  set (m := 2 ^ (row + 1)).
  assert (Hgeo : forall v, 0 <= row < _num_rows (assign_value "recconfig" (col_key col) v self)
                           /\ col < _num_cols (assign_value "recconfig" (col_key col) v self)).
  { intros v. destruct (assign_value_geometry "recconfig" (col_key col) v self)
      as (-> & -> & _). now split. }
  assert (Hword : forall v, column_word col (assign_value "recconfig" (col_key col) v self)
                            = Some v)
    by (intros v; eapply column_word_assign_same; eassumption).
  repeat split.
  - rewrite (disable_pixel_ok col row _ _ (proj1 (Hgeo _)) (proj2 (Hgeo _)) (Hword _)).
    fold m. rewrite (assign_value_twice _ _ _ self b f Hb Hk).
    unfold m. now rewrite clear_then_set by lia.
  - rewrite (enable_pixel_ok col row _ _ (proj1 (Hgeo _)) (proj2 (Hgeo _)) (Hword _)).
    fold m. rewrite (assign_value_twice _ _ _ self b f Hb Hk).
    replace (Z.land (Z.lor w m) (Z.lnot m)) with (Z.land w (Z.lnot m)); [reflexivity|].
    now rewrite Z.land_lor_distr_l, Z.land_lnot_diag, Z.lor_0_r.
  - rewrite (enable_pixel_ok col row _ _ (proj1 (Hgeo _)) (proj2 (Hgeo _)) (Hword _)).
    fold m. rewrite (assign_value_twice _ _ _ self b f Hb Hk).
    replace (Z.land (Z.land w (Z.lnot m)) (Z.lnot m)) with (Z.land w (Z.lnot m));
      [reflexivity|].
    now rewrite <- Z.land_assoc, Z.land_diag.
  - rewrite (disable_pixel_ok col row _ _ (proj1 (Hgeo _)) (proj2 (Hgeo _)) (Hword _)).
    fold m. rewrite (assign_value_twice _ _ _ self b f Hb Hk).
    replace (Z.lor (Z.lor w m) m) with (Z.lor w m); [reflexivity|].
    now rewrite <- Z.lor_assoc, Z.lor_diag.
Qed.

Lemma later_pixel_call_decides_witness :
  disable_pixel 3 0 (snd (enable_pixel 3 0 fixture_pixel_on)) = disable_pixel 3 0 fixture_pixel_on
  /\ enable_pixel 3 0 (snd (disable_pixel 3 0 fixture_pixel_on)) = enable_pixel 3 0 fixture_pixel_on
  /\ enable_pixel 3 0 (snd (enable_pixel 3 0 fixture_pixel_on)) = enable_pixel 3 0 fixture_pixel_on
  /\ disable_pixel 3 0 (snd (disable_pixel 3 0 fixture_pixel_on))
     = disable_pixel 3 0 fixture_pixel_on.
Proof.
  apply (later_pixel_call_decides fixture_pixel_on 3 0 68719476732);
    [vm_compute; split; [discriminate | reflexivity] | reflexivity | reflexivity].
Defined.

(** ** The bit patterns *)

Lemma default_bits (i : Z) :
  0 <= i -> Z.testbit RECCONFIG_DEFAULT i = (1 <=? i) && (i <=? 35).
Proof.
  intros Hi. change RECCONFIG_DEFAULT with (Z.shiftl (Z.ones 35) 1).
  rewrite Z.shiftl_spec by lia.
  destruct (Z.leb_spec 1 i).
  - rewrite Z.testbit_ones_nonneg by lia. cbn [andb].
    destruct (Z.ltb_spec (i - 1) 35), (Z.leb_spec i 35); lia || reflexivity.
  - now rewrite Z.testbit_neg_r by lia.
Qed.

Lemma ampout_off_bits (w i : Z) :
  0 <= i -> Z.testbit (Z.land w AMPOUT_OFF) i = Z.testbit w i && (i <? 37).
Proof.
  intros Hi. change AMPOUT_OFF with (Z.ones 37).
  now rewrite Z.land_spec, Z.testbit_ones_nonneg by lia.
Qed.

Lemma inj_col_off_bits (w i : Z) :
  0 <= i ->
  Z.testbit (Z.land w INJ_COL_OFF) i = Z.testbit w i && (i <? 38) && negb (i =? 36).
Proof.
  intros Hi. change INJ_COL_OFF with (Z.land (Z.ones 38) (Z.lnot (2 ^ 36))).
  rewrite !Z.land_spec, Z.lnot_spec, Z.testbit_ones_nonneg, Z.pow2_bits_eqb by lia.
  rewrite (Z.eqb_sym 36 i). now rewrite andb_assoc.
Qed.

Lemma inj_row_off_bits (w i : Z) :
  0 <= i ->
  Z.testbit (Z.land w INJ_ROW_OFF) i = Z.testbit w i && (i <? 38) && negb (i =? 0).
Proof.
  intros Hi. change INJ_ROW_OFF with (Z.land (Z.ones 38) (Z.lnot (2 ^ 0))).
  rewrite !Z.land_spec, Z.lnot_spec, Z.testbit_ones_nonneg, Z.pow2_bits_eqb by lia.
  rewrite (Z.eqb_sym 0 i). now rewrite andb_assoc.
Qed.

Lemma lor_pow2_bits (w n i : Z) :
  0 <= n -> 0 <= i -> Z.testbit (Z.lor w (2 ^ n)) i = Z.testbit w i || (i =? n).
Proof.
  intros Hn Hi. now rewrite Z.lor_spec, Z.pow2_bits_eqb, (Z.eqb_sym n i) by lia.
Qed.

(** ** The injection switches *)

(** Read a column word, write back a function of it. *)
Lemma word_update_ok (k : string) (g : Z -> Z) (self : Asic) (b : Block) (f : Field) :
  recconfig self = Some b -> dict_get k b = Some f ->
  (w <- recconfig_get k ;; store_value "recconfig" k (g w)) self
  = (Returns tt, assign_value "recconfig" k (g (value f)) self).
Proof.
  intros Hb Hk.
  erewrite bind_returns by (eapply recconfig_get_ok; eassumption).
  eapply store_value_ok; eassumption.
Qed.

(** X5. With the column word present and [col < num_cols], [enable_inj_col]
    sets bit 36 of the word and keeps every other bit; [disable_inj_col]
    clears bit 36, keeps the other bits below 38 and drops every bit from 38
    up.  Neither changes what [get_pixel] answers for rows 0 to 34 of any
    column. *)
Theorem inj_col_switch (self : Asic) (col w : Z) :
  col < _num_cols self ->
  column_word col self = Some w ->
  exists s1 s2 w1 w2,
    enable_inj_col col self = (Returns tt, s1)
    /\ disable_inj_col col self = (Returns tt, s2)
    /\ column_word col s1 = Some w1 /\ column_word col s2 = Some w2
    /\ (forall i, 0 <= i -> Z.testbit w1 i = Z.testbit w i || (i =? 36))
    /\ (forall i, 0 <= i ->
          Z.testbit w2 i = Z.testbit w i && (i <? 38) && negb (i =? 36))
    /\ (forall col' row', 0 <= row' <= 34 ->
          fst (get_pixel col' row' s1) = fst (get_pixel col' row' self)
          /\ fst (get_pixel col' row' s2) = fst (get_pixel col' row' self)).
Proof.
  intros Hc Hw. pose proof Hw as Hw'.
  apply column_word_inv in Hw' as (b & f & Hb & Hk & Hv).
  exists (assign_value "recconfig" (col_key col) (Z.lor w INJ_COL_BIT) self),
         (assign_value "recconfig" (col_key col) (Z.land w INJ_COL_OFF) self),
         (Z.lor w INJ_COL_BIT), (Z.land w INJ_COL_OFF).
  split; [|split].
  - unfold enable_inj_col. enter_guard. rewrite <- Hv.
    now apply (word_update_ok _ (fun w => Z.lor w INJ_COL_BIT) self b f).
  - unfold disable_inj_col. enter_guard. rewrite <- Hv.
    now apply (word_update_ok _ (fun w => Z.land w INJ_COL_OFF) self b f).
  - split; [eapply column_word_assign_same; eassumption|].
    split; [eapply column_word_assign_same; eassumption|].
    split; [intros i Hi; change INJ_COL_BIT with (2 ^ 36); now apply lor_pow2_bits|].
    split; [intros i Hi; now apply inj_col_off_bits|].
    intros col' row' Hr'.
    split; apply (get_pixel_same_bit col col' row' w _ self b Hb); try lia;
      try (now rewrite Hk); intros _; (split; [assumption|]).
    + change INJ_COL_BIT with (2 ^ 36). rewrite lor_pow2_bits by lia.
      destruct (Z.eqb_spec (row' + 1) 36); [lia | apply orb_false_r].
    + rewrite inj_col_off_bits by lia.
      destruct (Z.ltb_spec (row' + 1) 38), (Z.eqb_spec (row' + 1) 36); try lia.
      cbn [negb]. now rewrite !andb_true_r.
Qed.

Lemma inj_col_switch_witness :
  exists s1 s2 w1 w2,
    enable_inj_col 3 fixture_asic = (Returns tt, s1)
    /\ disable_inj_col 3 fixture_asic = (Returns tt, s2)
    /\ column_word 3 s1 = Some w1 /\ column_word 3 s2 = Some w2
    /\ (forall i, 0 <= i -> Z.testbit w1 i = Z.testbit RECCONFIG_DEFAULT i || (i =? 36))
    /\ (forall i, 0 <= i ->
          Z.testbit w2 i = Z.testbit RECCONFIG_DEFAULT i && (i <? 38) && negb (i =? 36))
    /\ (forall col' row', 0 <= row' <= 34 ->
          fst (get_pixel col' row' s1) = fst (get_pixel col' row' fixture_asic)
          /\ fst (get_pixel col' row' s2) = fst (get_pixel col' row' fixture_asic)).
Proof.
  apply (inj_col_switch fixture_asic 3 RECCONFIG_DEFAULT); [cbn; lia | reflexivity].
Defined.

(** X6. [enable_inj_row row] and [disable_inj_row row] act on the word of
    column number [row]: with that word present and [row < num_rows], the
    first sets bit 0 and keeps every other bit, the second clears bit 0,
    keeps the other bits below 38 and drops every bit from 38 up.  Neither
    changes what [get_pixel] answers for rows 0 to 34 of any column. *)
Theorem inj_row_switch (self : Asic) (row w : Z) :
  row < _num_rows self ->
  column_word row self = Some w ->
  exists s1 s2 w1 w2,
    enable_inj_row row self = (Returns tt, s1)
    /\ disable_inj_row row self = (Returns tt, s2)
    /\ column_word row s1 = Some w1 /\ column_word row s2 = Some w2
    /\ (forall i, 0 <= i -> Z.testbit w1 i = Z.testbit w i || (i =? 0))
    /\ (forall i, 0 <= i ->
          Z.testbit w2 i = Z.testbit w i && (i <? 38) && negb (i =? 0))
    /\ (forall col' row', 0 <= row' <= 34 ->
          fst (get_pixel col' row' s1) = fst (get_pixel col' row' self)
          /\ fst (get_pixel col' row' s2) = fst (get_pixel col' row' self)).
Proof.
  intros Hr Hw. pose proof Hw as Hw'.
  apply column_word_inv in Hw' as (b & f & Hb & Hk & Hv).
  exists (assign_value "recconfig" (col_key row) (Z.lor w INJ_ROW_BIT) self),
         (assign_value "recconfig" (col_key row) (Z.land w INJ_ROW_OFF) self),
         (Z.lor w INJ_ROW_BIT), (Z.land w INJ_ROW_OFF).
  split; [|split].
  - unfold enable_inj_row. enter_guard. rewrite <- Hv.
    now apply (word_update_ok _ (fun w => Z.lor w INJ_ROW_BIT) self b f).
  - unfold disable_inj_row. enter_guard. rewrite <- Hv.
    now apply (word_update_ok _ (fun w => Z.land w INJ_ROW_OFF) self b f).
  - split; [eapply column_word_assign_same; eassumption|].
    split; [eapply column_word_assign_same; eassumption|].
    split; [intros i Hi; change INJ_ROW_BIT with (2 ^ 0); now apply lor_pow2_bits|].
    split; [intros i Hi; now apply inj_row_off_bits|].
    intros col' row' Hr'.
    split; apply (get_pixel_same_bit row col' row' w _ self b Hb); try lia;
      try (now rewrite Hk); intros _; (split; [assumption|]).
    + change INJ_ROW_BIT with (2 ^ 0). rewrite lor_pow2_bits by lia.
      destruct (Z.eqb_spec (row' + 1) 0); [lia | apply orb_false_r].
    + rewrite inj_row_off_bits by lia.
      destruct (Z.ltb_spec (row' + 1) 38), (Z.eqb_spec (row' + 1) 0); try lia.
      cbn [negb]. now rewrite !andb_true_r.
Qed.

Lemma inj_row_switch_witness :
  exists s1 s2 w1 w2,
    enable_inj_row 7 fixture_asic = (Returns tt, s1)
    /\ disable_inj_row 7 fixture_asic = (Returns tt, s2)
    /\ column_word 7 s1 = Some w1 /\ column_word 7 s2 = Some w2
    /\ (forall i, 0 <= i -> Z.testbit w1 i = Z.testbit RECCONFIG_DEFAULT i || (i =? 0))
    /\ (forall i, 0 <= i ->
          Z.testbit w2 i = Z.testbit RECCONFIG_DEFAULT i && (i <? 38) && negb (i =? 0))
    /\ (forall col' row', 0 <= row' <= 34 ->
          fst (get_pixel col' row' s1) = fst (get_pixel col' row' fixture_asic)
          /\ fst (get_pixel col' row' s2) = fst (get_pixel col' row' fixture_asic)).
Proof.
  apply (inj_row_switch fixture_asic 7 RECCONFIG_DEFAULT); [cbn; lia | reflexivity].
Defined.

(** ** [reset_recconfig] *)

Lemma reset_loop (l : list string) (self : Asic) (b : Block) :
  recconfig self = Some b ->
  (forall k, In k l -> dict_get k b <> None) ->
  exists s' b',
    for_each l (fun key => store_value "recconfig" key RECCONFIG_DEFAULT) self
    = (Returns tt, s')
    /\ recconfig s' = Some b'
    /\ _num_rows s' = _num_rows self
    /\ map fst b' = map fst b
    /\ forall k, dict_get k b'
                 = option_map (fun f => if existsb (String.eqb k) l
                                        then set_value RECCONFIG_DEFAULT f else f)
                              (dict_get k b).
Proof.
  unfold for_each. revert self b.
  induction l as [|k0 l IH]; intros self b Hb Hl.
  - exists self, b. repeat split; try assumption.
    intros k. cbn. now destruct (dict_get k b).
  - cbn [foldM].
    destruct (dict_get k0 b) as [f0|] eqn:Hk0; [|exfalso; apply (Hl k0); [now left | assumption]].
    set (s1 := assign_value "recconfig" k0 RECCONFIG_DEFAULT self).
    destruct (IH s1 (dict_adjust (set_value RECCONFIG_DEFAULT) k0 b))
      as (s' & b' & Hrun & Hb' & Hrows & Hkeys & Hget).
    + unfold s1. now rewrite recconfig_assign, Hb.
    + intros k Hk. apply dict_get_adjust_present. apply Hl. now right.
    + exists s', b'. split; [|split; [|split; [|split]]].
      * erewrite bind_returns by (eapply store_value_ok; eassumption). exact Hrun.
      * exact Hb'.
      * rewrite Hrows. apply assign_value_geometry.
      * now rewrite Hkeys, dict_adjust_keys.
      * intros k. rewrite Hget. cbn [existsb].
        destruct (String.eqb_spec k k0) as [->|Hne].
        -- rewrite dict_get_adjust_same, Hk0. cbn [option_map orb].
           now destruct (existsb _ l).
        -- now rewrite dict_get_adjust_other.
Qed.

Lemma dict_get_some_key_in {V} (k : string) (v : V) (d : dict V) :
  dict_get k d = Some v -> In k (map fst d).
Proof.
  induction d as [|[k' v'] d IH]; [discriminate|].
  cbn [dict_get map fst].
  destruct (String.eqb_spec k k') as [->|_]; [now left | right; now apply IH].
Qed.

(** X7. With the receiver block present, [reset_recconfig] returns and
    every column word holds the default pattern; no key is added or removed.
    The pattern has bits 1 to 35 set, so afterwards [get_pixel] answers false
    for rows 0 to 34 and true for any row from 35 up that a larger [num_rows]
    admits. *)
Theorem reset_recconfig_default (self : Asic) (b : Block) :
  recconfig self = Some b ->
  exists s',
    reset_recconfig self = (Returns tt, s')
    /\ (forall col, column_word col s'
                    = option_map (fun _ => RECCONFIG_DEFAULT) (column_word col self))
    /\ (forall col w row, column_word col self = Some w -> 0 <= row < _num_rows self ->
          get_pixel col row s' = (Returns (Some (35 <=? row)), s')).
Proof.
  intros Hb.
  destruct (reset_loop (map fst b) self b Hb) as (s' & b' & Hrun & Hb' & Hrows & _ & Hget).
  { intros k. apply dict_get_key_in. }
  assert (Hword : forall col, column_word col s'
                  = option_map (fun _ => RECCONFIG_DEFAULT) (column_word col self)).
  { intros col. unfold column_word. rewrite Hb, Hb', Hget.
    destruct (dict_get (col_key col) b) as [f|] eqn:Hk; [|reflexivity].
    cbn [option_map].
    now rewrite (proj2 (existsb_eqb_iff _ _) (dict_get_some_key_in _ _ _ Hk)). }
  exists s'. split; [|split].
  - unfold reset_recconfig.
    erewrite bind_returns by (apply config_block_recconfig; eassumption). exact Hrun.
  - exact Hword.
  - intros col w row Hw Hr.
    rewrite (get_pixel_ok col row RECCONFIG_DEFAULT s').
    + rewrite default_bits by lia. do 3 f_equal.
      destruct (Z.leb_spec 1 (row + 1)), (Z.leb_spec (row + 1) 35), (Z.leb_spec 35 row);
        lia || reflexivity.
    + now rewrite Hrows.
    + now rewrite Hword, Hw.
Qed.

Lemma reset_recconfig_default_witness :
  exists s',
    reset_recconfig fixture_pixel_on = (Returns tt, s')
    /\ (forall col, column_word col s'
                    = option_map (fun _ => RECCONFIG_DEFAULT) (column_word col fixture_pixel_on))
    /\ (forall col w row, column_word col fixture_pixel_on = Some w ->
          0 <= row < _num_rows fixture_pixel_on ->
          get_pixel col row s' = (Returns (Some (35 <=? row)), s')).
Proof.
  apply (reset_recconfig_default fixture_pixel_on
           (dict_adjust (set_value 68719476732) (col_key 3) (fixture_recconfig 35))).
  reflexivity.
Defined.

(** ** [enable_ampout_col]: the column that is not there, the bits it keeps *)

(** X8. On a receiver block that matches the geometry, [enable_ampout_col]
    for a column that has no word (any [col] outside [0 .. num_cols-1])
    raises [KeyError] after the loop has run: the mux-select bit is then set
    in no column word at all. *)
Theorem enable_ampout_col_absent (self : Asic) (col : Z) :
  recconfig_matches_geometry self = true ->
  column_word col self = None ->
  exists s',
    enable_ampout_col col self = (Raises (KeyError (col_key col)), s')
    /\ forall c w, column_word c s' = Some w -> ampout_selected w = false.
Proof.
  intros Hgeo Hnone.
  destruct (matches_geometry_inv self Hgeo) as (b & Hb & Hnd & Hsub & Hsup).
  assert (Hk : dict_get (col_key col) b = None).
  { unfold column_word in Hnone. rewrite Hb in Hnone.
    now destruct (dict_get (col_key col) b). }
  set (l := range (_num_cols self)).
  exists (recconfig_update (ampout_cleared l) self). split.
  - unfold enable_ampout_col, num_cols. unfold bind at 1, gets.
    erewrite bind_returns; cycle 1.
    { eapply ampout_clear_loop; [eassumption|].
      intros i Hi. apply dict_get_key_in. apply Hsup. now apply in_map. }
    fold l. apply bind_raises. unfold recconfig_item.
    erewrite bind_returns; cycle 1.
    { apply config_block_recconfig. rewrite recconfig_of_update, Hb. reflexivity. }
    unfold bind, lift_outcome, subscript.
    rewrite ampout_cleared_get, Hk. reflexivity.
  - intros c w Hw. unfold column_word in Hw.
    rewrite recconfig_of_update, Hb in Hw.
    change (option_map (ampout_cleared l) (Some b)) with (Some (ampout_cleared l b)) in Hw.
    cbv beta iota in Hw. rewrite ampout_cleared_get in Hw.
    destruct (dict_get (col_key c) b) as [f|] eqn:Hc; [|discriminate].
    unfold option_map in Hw.
    assert (Hin : In (col_key c) (map col_key l))
      by (apply Hsub; eapply dict_get_some_key_in; eassumption).
    rewrite (proj2 (existsb_eqb_iff _ _) Hin) in Hw.
    assert (E : forall x y : Z, Some x = Some y -> x = y) by (now intros x y [=]).
    apply E in Hw. rewrite <- Hw.
    apply ampout_off_not_selected.
Qed.

Lemma enable_ampout_col_absent_witness :
  exists s',
    enable_ampout_col 35 (snd (enable_ampout_col 5 fixture_asic))
    = (Raises (KeyError (col_key 35)), s')
    /\ forall c w, column_word c s' = Some w -> ampout_selected w = false.
Proof.
  apply (enable_ampout_col_absent (snd (enable_ampout_col 5 fixture_asic)) 35);
    vm_compute; reflexivity.
Defined.

(** X9. On a receiver block that matches the geometry and for a column whose
    word is there, [enable_ampout_col] keeps bits 0 to 36 of every column
    word (the injection switches and the pixel bits) and drops every bit from
    38 up; [get_pixel] answers for rows 0 to 34 what it answered before. *)
Theorem enable_ampout_col_keeps_low_bits (self : Asic) (col w : Z) :
  recconfig_matches_geometry self = true ->
  column_word col self = Some w ->
  exists s1,
    enable_ampout_col col self = (Returns tt, s1)
    /\ (forall c wc, column_word c self = Some wc ->
          exists wc', column_word c s1 = Some wc'
            /\ forall i, 0 <= i -> i <> 37 ->
                 Z.testbit wc' i = Z.testbit wc i && (i <? 37))
    /\ (forall c row, 0 <= row <= 34 ->
          fst (get_pixel c row s1) = fst (get_pixel c row self)).
Proof.
  intros Hgeo Hw.
  destruct (matches_geometry_inv self Hgeo) as (b & Hb & Hnd & Hsub & Hsup).
  pose proof Hw as Hw'. apply column_word_inv in Hw' as (b0 & f & Hb0 & Hk & _).
  rewrite Hb in Hb0. injection Hb0 as <-.
  set (F := ampout_block (_num_cols self) col).
  assert (Hb1 : recconfig (recconfig_update F self) = Some (F b))
    by (now rewrite recconfig_of_update, Hb).
  assert (Hbits : forall k fk i, dict_get k b = Some fk -> 0 <= i -> i <> 37 ->
            Z.testbit (value (ampout_field (_num_cols self) col k fk)) i
            = Z.testbit (value fk) i && (i <? 37)).
  { intros k fk i Hfk Hi Hne.
    assert (Hin : In k (map col_key (range (_num_cols self))))
      by (apply Hsub; eapply dict_get_some_key_in; eassumption).
    unfold ampout_field. rewrite (proj2 (existsb_eqb_iff _ _) Hin).
    destruct (String.eqb (col_key col) k); unfold ampout_on, ampout_off, set_value;
      cbn [value]; [|now apply ampout_off_bits].
    change AMPOUT_BIT with (2 ^ 37). rewrite lor_pow2_bits, ampout_off_bits by lia.
    destruct (Z.eqb_spec i 37); [lia | apply orb_false_r]. }
  assert (Hwords : forall c, column_word c (recconfig_update F self)
            = option_map (fun fk => value (ampout_field (_num_cols self) col (col_key c) fk))
                         (dict_get (col_key c) b)).
  { intros c. unfold column_word. rewrite Hb1. unfold F. rewrite ampout_block_get.
    now destruct (dict_get (col_key c) b). }
  exists (recconfig_update F self). split; [|split].
  - apply (enable_ampout_col_ok col self b); [assumption | assumption | now rewrite Hk].
  - intros c wc Hc. apply column_word_inv in Hc as (b0 & fc & Hb0 & Hkc & <-).
    rewrite Hb in Hb0. injection Hb0 as <-.
    eexists. split; [rewrite Hwords, Hkc; reflexivity|].
    intros i Hi Hne. now apply Hbits.
  - intros c row Hr.
    rewrite (get_pixel_outcome c row _ (F b) Hb1), (get_pixel_outcome c row self b Hb).
    replace (_num_rows (recconfig_update F self)) with (_num_rows self)
      by (unfold recconfig_update; now destruct (asic_config self)).
    destruct (row <? _num_rows self); [|reflexivity].
    rewrite Hwords. unfold column_word at 1. rewrite Hb.
    destruct (dict_get (col_key c) b) as [fc|] eqn:Hkc; [|reflexivity].
    cbn [option_map]. unfold py_shiftl. destruct (Z.ltb_spec (row + 1) 0); [lia|].
    rewrite (proj2 (pixel_mask row (proj1 Hr))), !land_pow2 by lia.
    rewrite (Hbits _ _ _ Hkc) by lia.
    destruct (Z.ltb_spec (row + 1) 37); [|lia]. now rewrite andb_true_r.
Qed.

Lemma enable_ampout_col_keeps_low_bits_witness :
  exists s1,
    enable_ampout_col 5 fixture_pixel_on = (Returns tt, s1)
    /\ (forall c wc, column_word c fixture_pixel_on = Some wc ->
          exists wc', column_word c s1 = Some wc'
            /\ forall i, 0 <= i -> i <> 37 ->
                 Z.testbit wc' i = Z.testbit wc i && (i <? 37))
    /\ (forall c row, 0 <= row <= 34 ->
          fst (get_pixel c row s1) = fst (get_pixel c row fixture_pixel_on)).
Proof.
  apply (enable_ampout_col_keeps_low_bits fixture_pixel_on 5 RECCONFIG_DEFAULT);
    reflexivity.
Defined.

(** ** The serializer: what it leaves alone, what it drops, what it tells apart *)

Lemma foldM_app {S A B} (body : B -> A -> M S B) (l1 l2 : list A) (acc : B) (s : S) :
  foldM body (l1 ++ l2) acc s = bind (foldM body l1 acc) (foldM body l2) s.
Proof.
  revert acc s. induction l1 as [|a l1 IH]; intros acc s.
  - reflexivity.
  - cbn [app foldM]. unfold bind.
    destruct (body acc a s) as [[acc'|e] s']; [|reflexivity].
    rewrite IH. reflexivity.
Qed.

(** The two nested loops are one loop over the fields in scan-chain order. *)
Lemma foldM_blocks {S B} (body : B -> string * Field -> M S B) (cfg : ChipConfig)
      (acc : B) (s : S) :
  foldM (fun acc (blk : string * Block) => foldM body (snd blk) acc) cfg acc s
  = foldM body (flat_map snd cfg) acc s.
Proof.
  revert acc s. induction cfg as [|[k b] cfg IH]; intros acc s; [reflexivity|].
  cbn [foldM flat_map snd]. rewrite foldM_app. unfold bind.
  destruct (foldM body b acc s) as [[acc'|e] s']; [apply IH | reflexivity].
Qed.

Lemma BitArray_of_uint_unfit (f : Field) :
  valid_field f = false -> BitArray_of_uint (value f) (width f) = Raises ValueError.
Proof.
  unfold valid_field, BitArray_of_uint. intros H.
  destruct (Z.leb_spec (width f) 0); [reflexivity|].
  destruct (Z.ltb_spec (value f) 0); [reflexivity|].
  destruct (Z.leb_spec (2 ^ width f) (value f)); [reflexivity|].
  exfalso. revert H.
  destruct (Z.ltb_spec 0 (width f)), (Z.leb_spec 0 (value f)),
    (Z.ltb_spec (value f) (2 ^ width f)); cbn; (discriminate || lia).
Qed.

Lemma BitArray_of_uint_valid (f : Field) :
  valid_field f = true ->
  BitArray_of_uint (value f) (width f) = Returns (uint_bits (Z.to_nat (width f)) (value f)).
Proof.
  intros H. apply valid_field_spec in H as [Hw Hv]. now apply BitArray_of_uint_fits.
Qed.

Lemma add_stdout_twice (l1 l2 : list line) (self : Asic) :
  add_stdout l1 (add_stdout l2 self) = add_stdout (l1 ++ l2) self.
Proof. unfold add_stdout. cbn. now rewrite app_assoc. Qed.

Section SerializerMore.

Variable append_None : BitArray -> outcome BitArray.

Lemma same_model_trans (s1 s2 s3 : Asic) :
  same_model s1 s2 -> same_model s2 s3 -> same_model s1 s3.
Proof.
  unfold same_model. intros (A1 & A2 & A3 & A4) (B1 & B2 & B3 & B4).
  repeat split; congruence.
Qed.

Lemma int2nbit_keeps_model (v n : Z) (self : Asic) :
  same_model self (snd (__int2nbit v n self)).
Proof.
  unfold __int2nbit, same_model.
  destruct (BitArray_of_uint v n) as [b|[]]; cbn; repeat split.
Qed.

Lemma fields_loop_keeps_model (l : list (string * Field)) (acc : BitArray) (self : Asic) :
  same_model self
    (snd (foldM (fun bitvector (values : string * Field) =>
                   x <- __int2nbit (value (snd values)) (width (snd values)) ;;
                   lift_outcome (append append_None bitvector x))
                l acc self)).
Proof.
  revert acc self. induction l as [|[k f] l IH]; intros acc self;
    [cbn; unfold same_model; repeat split|].
  cbn [foldM snd]. unfold bind at 1, bind at 1, lift_outcome.
  pose proof (int2nbit_keeps_model (value f) (width f) self) as H0.
  destruct (__int2nbit (value f) (width f) self) as [[x|e] s1]; cbn [snd] in H0 |- *;
    [|exact H0].
  destruct (append append_None acc x) as [acc'|e]; cbn [snd]; [|exact H0].
  eapply same_model_trans; [exact H0 | apply IH].
Qed.

(** X10. Serializing never changes the register model: whatever the config
    holds and whatever the library does with a refused field, after
    [gen_asic_vector] (returned or raised) the config, the geometry and the
    log are what they were. *)
Theorem gen_asic_vector_keeps_model (msbfirst : bool) (self : Asic) :
  same_model self (snd (gen_asic_vector append_None msbfirst self)).
Proof.
  unfold gen_asic_vector. unfold bind at 1.
  destruct (asic_config self) as [cfg|] eqn:E; [|cbn; unfold same_model; repeat split].
  unfold bind at 1. rewrite foldM_blocks.
  pose proof (fields_loop_keeps_model (flat_map snd cfg) [] self) as H.
  match type of H with
  | same_model _ (snd ?r) => destruct r as [[bits|e] s1]
  end; exact H.
Qed.

Hypothesis append_None_ignored : forall b, append_None b = Returns b.

Lemma fields_loop_accepting (l : list (string * Field)) (acc : BitArray) (self : Asic) :
  foldM (fun bitvector (values : string * Field) =>
           x <- __int2nbit (value (snd values)) (width (snd values)) ;;
           lift_outcome (append append_None bitvector x))
        l acc self
  = (Returns (acc ++ flat_map (fun f => if valid_field f
                                        then uint_bits (Z.to_nat (width f)) (value f)
                                        else [])
                              (map snd l)),
     add_stdout (rev (map (fun f => AllowedValues (width f))
                          (filter (fun f => negb (valid_field f)) (map snd l))))
                self).
Proof.
  revert acc self. induction l as [|[k f] l IH]; intros acc self.
  - cbn. rewrite app_nil_r. now destruct self.
  - cbn [foldM snd map flat_map filter]. unfold bind at 1, bind at 1, __int2nbit.
    destruct (valid_field f) eqn:Hf; cbn [negb].
    + rewrite BitArray_of_uint_valid by assumption. cbn. rewrite IH.
      now rewrite <- app_assoc.
    + rewrite BitArray_of_uint_unfit by assumption. cbn.
      rewrite append_None_ignored, IH. cbn [map rev app].
      f_equal. unfold add_stdout, print, modify. cbn. now rewrite <- app_assoc.
Qed.

(** X11. When the library appends nothing for [None], a field whose value
    does not fit its width (or whose width is not positive) is left out of
    the vector without an error: [gen_asic_vector] returns the bits of the
    other fields alone, so the vector is shorter than the sum of the widths,
    and one line per left-out field is printed. *)
Theorem gen_asic_vector_drops_unfit (msbfirst : bool) (self : Asic) (cfg : ChipConfig) :
  asic_config self = Some cfg ->
  exists bits,
    gen_asic_vector append_None msbfirst self
    = (Returns bits, add_stdout (rejected_lines cfg) self)
    /\ bits = (if negb msbfirst then rev (accepted_bits cfg) else accepted_bits cfg)
    /\ Z.of_nat (List.length bits) = fold_right Z.add 0 (accepted_widths cfg).
Proof.
  intros Hcfg. eexists. split; [|split; [reflexivity|]].
  - unfold gen_asic_vector.
    erewrite bind_returns by (rewrite Hcfg; reflexivity).
    erewrite bind_returns by (rewrite foldM_blocks; apply fields_loop_accepting).
    reflexivity.
  - assert (H : Z.of_nat (List.length (accepted_bits cfg))
                = fold_right Z.add 0 (accepted_widths cfg)).
    { unfold accepted_bits, accepted_widths.
      induction (fields cfg) as [|f l IH]; [reflexivity|].
      cbn [flat_map filter]. destruct (valid_field f) eqn:Hf.
      - cbn [map fold_right]. rewrite length_app, uint_bits_length, Nat2Z.inj_add, IH.
        apply valid_field_spec in Hf. lia.
      - exact IH. }
    destruct msbfirst; cbn [negb]; [|rewrite length_rev]; exact H.
Qed.

End SerializerMore.

Lemma gen_asic_vector_drops_unfit_witness :
  exists bits,
    gen_asic_vector append_None_nothing false fixture_unfit
    = (Returns bits, add_stdout (rejected_lines [ ("biasconfig", [ ("DisHiDR", mkField 1 0); ("qon1", mkField 1 2) ]);
            ("idacs", [ ("blres", mkField 6 5) ]) ]) fixture_unfit)
    /\ bits = rev (accepted_bits [ ("biasconfig", [ ("DisHiDR", mkField 1 0); ("qon1", mkField 1 2) ]);
            ("idacs", [ ("blres", mkField 6 5) ]) ])
    /\ Z.of_nat (List.length bits) = 7.
Proof.
  apply (gen_asic_vector_drops_unfit append_None_nothing (fun b => eq_refl) false fixture_unfit).
  reflexivity.
Defined.

Lemma config_bits_fields (cfg : ChipConfig) :
  config_bits cfg
  = flat_map (fun f => uint_bits (Z.to_nat (width f)) (value f)) (fields cfg).
Proof.
  unfold config_bits, fields, block_bits.
  induction cfg as [|[k b] cfg IH]; [reflexivity|].
  cbn [flat_map snd]. rewrite map_app, flat_map_app, IH. f_equal.
  induction b as [|[k' f] b IHb]; [reflexivity|].
  cbn [flat_map map snd]. now rewrite IHb.
Qed.

Lemma field_widths_fields (cfg : ChipConfig) :
  field_widths cfg = map width (fields cfg).
Proof.
  unfold field_widths, fields.
  induction cfg as [|[k b] cfg IH]; [reflexivity|].
  cbn [flat_map snd]. rewrite !map_app, IH. f_equal. now rewrite map_map.
Qed.

Lemma valid_config_fields (cfg : ChipConfig) :
  valid_config cfg = forallb valid_field (fields cfg).
Proof.
  unfold valid_config, fields, valid_block.
  induction cfg as [|[k b] cfg IH]; [reflexivity|].
  cbn [forallb flat_map snd]. rewrite map_app, forallb_app, IH. f_equal.
  induction b as [|[k' f] b IHb]; [reflexivity|].
  cbn [forallb map snd]. now rewrite IHb.
Qed.

Lemma uint_bits_inj (n : nat) (v1 v2 : Z) :
  0 <= v1 < 2 ^ Z.of_nat n -> 0 <= v2 < 2 ^ Z.of_nat n ->
  uint_bits n v1 = uint_bits n v2 -> v1 = v2.
Proof.
  intros H1 H2 E. apply (f_equal uint) in E.
  rewrite !uint_of_uint_bits in E. now rewrite !Z.mod_small in E.
Qed.

Lemma encoded_fields_inj (l1 l2 : list Field) :
  map width l1 = map width l2 ->
  forallb valid_field l1 = true -> forallb valid_field l2 = true ->
  flat_map (fun f => uint_bits (Z.to_nat (width f)) (value f)) l1
  = flat_map (fun f => uint_bits (Z.to_nat (width f)) (value f)) l2 ->
  map value l1 = map value l2.
Proof.
  revert l2. induction l1 as [|f1 l1 IH]; intros [|f2 l2] Hw H1 H2 E;
    try discriminate; [reflexivity|].
  cbn [map] in Hw. injection Hw as Hw Hws.
  cbn [forallb] in H1, H2.
  apply andb_true_iff in H1 as [Hf1 H1]. apply andb_true_iff in H2 as [Hf2 H2].
  apply valid_field_spec in Hf1 as [Hp1 Hv1]. apply valid_field_spec in Hf2 as [Hp2 Hv2].
  cbn [flat_map] in E. rewrite <- Hw in E, Hv2.
  assert (Hlen : List.length (uint_bits (Z.to_nat (width f1)) (value f1))
                 = List.length (uint_bits (Z.to_nat (width f1)) (value f2)))
    by now rewrite !uint_bits_length.
  destruct (app_eq_app _ _ _ _ E) as (l & [[E1 E2]|[E1 E2]]);
    assert (l = []) by
      (apply (f_equal (@List.length bool)) in E1; rewrite length_app in E1;
       apply length_zero_iff_nil; lia);
    subst l; rewrite app_nil_r in E1; cbn [app] in E2.
  - cbn [map]. f_equal.
    + apply (uint_bits_inj (Z.to_nat (width f1))); rewrite ?Z2Nat.id by lia; auto.
    + now apply IH.
  - cbn [map]. f_equal.
    + apply (uint_bits_inj (Z.to_nat (width f1))); rewrite ?Z2Nat.id by lia; auto.
    + apply IH; auto.
Qed.

(** X12. The vector tells valid configs of one shape apart: when two configs
    with valid fields have the same field widths in the same order and
    [gen_asic_vector] gives the same bits for both, their field values are
    the same. *)
Theorem gen_asic_vector_injective (append_None : BitArray -> outcome BitArray)
        (msbfirst : bool) (s1 s2 : Asic) (cfg1 cfg2 : ChipConfig) :
  asic_config s1 = Some cfg1 -> asic_config s2 = Some cfg2 ->
  valid_config cfg1 = true -> valid_config cfg2 = true ->
  field_widths cfg1 = field_widths cfg2 ->
  fst (gen_asic_vector append_None msbfirst s1)
  = fst (gen_asic_vector append_None msbfirst s2) ->
  field_values cfg1 = field_values cfg2.
Proof.
  intros Hc1 Hc2 Hv1 Hv2 Hw E.
  rewrite (gen_asic_vector_valid append_None msbfirst s1 cfg1 Hc1 Hv1) in E.
  rewrite (gen_asic_vector_valid append_None msbfirst s2 cfg2 Hc2 Hv2) in E.
  cbn [fst] in E. injection E as E.
  assert (E' : config_bits cfg1 = config_bits cfg2).
  { destruct msbfirst; cbn [negb] in E; [assumption|].
    apply (f_equal (@rev bool)) in E. now rewrite !rev_involutive in E. }
  rewrite !config_bits_fields in E'. rewrite !field_widths_fields in Hw.
  rewrite valid_config_fields in Hv1, Hv2.
  unfold field_values. now apply encoded_fields_inj.
Qed.

Lemma gen_asic_vector_injective_witness :
  field_values fixture_config
  = field_values (dict_adjust (dict_adjust (set_value 20) "vn1") "idacs" fixture_config).
Proof.
  apply (gen_asic_vector_injective append_None_raises false fixture_asic
           (with_config (dict_adjust (dict_adjust (set_value 20) "vn1") "idacs" fixture_config)
                        fixture_asic));
    reflexivity.
Defined.

(** ** Pixel operations and the validity of the model *)

Lemma forallb_dict_adjust {V} (P : V -> bool) (g : V -> V) (k : string) (d : dict V) :
  forallb (fun kv => P (snd kv)) d = true ->
  (forall v, dict_get k d = Some v -> P (g v) = true) ->
  forallb (fun kv => P (snd kv)) (dict_adjust g k d) = true.
Proof.
  induction d as [|[k' v'] d IH]; intros Hall Hg; [reflexivity|].
  cbn [forallb snd] in Hall. apply andb_true_iff in Hall as [Hv Hd].
  cbn [dict_adjust dict_get] in *. destruct (String.eqb k k').
  - cbn [forallb snd]. now rewrite (Hg v' eq_refl), Hd.
  - cbn [forallb snd]. now rewrite Hv, IH.
Qed.

Lemma forallb_dict_adjust_false {V} (P : V -> bool) (g : V -> V) (k : string)
      (d : dict V) (v : V) :
  dict_get k d = Some v -> P (g v) = false ->
  forallb (fun kv => P (snd kv)) (dict_adjust g k d) = false.
Proof.
  induction d as [|[k' v'] d IH]; intros Hget Hg; [discriminate|].
  cbn [dict_adjust dict_get] in *. destruct (String.eqb k k').
  - injection Hget as ->. cbn [forallb snd]. now rewrite Hg.
  - cbn [forallb snd]. rewrite IH by assumption. apply andb_false_r.
Qed.

Lemma field_widths_assign (blk k : string) (v : Z) (cfg : ChipConfig) :
  field_widths (dict_adjust (dict_adjust (set_value v) k) blk cfg) = field_widths cfg.
Proof.
  unfold field_widths.
  induction cfg as [|[k' b] cfg IH]; [reflexivity|].
  cbn [dict_adjust]. destruct (String.eqb blk k'); cbn [flat_map snd]; [|now rewrite IH].
  f_equal. induction b as [|[k'' f] b IHb]; [reflexivity|].
  cbn [dict_adjust]. destruct (String.eqb k k''); cbn [map snd]; [reflexivity | now rewrite IHb].
Qed.

Lemma testbit_true_ge (x n : Z) :
  0 <= x -> 0 <= n -> Z.testbit x n = true -> 2 ^ n <= x.
Proof.
  intros Hx Hn Hbit. destruct (Z.lt_ge_cases x (2 ^ n)) as [Hlt|]; [|assumption].
  exfalso. destruct (Z.eq_dec x 0) as [->|Hne].
  - now rewrite Z.bits_0 in Hbit.
  - rewrite Z.bits_above_log2 in Hbit; [discriminate | assumption |].
    apply Z.log2_lt_pow2; lia.
Qed.

Lemma clear_bit_bounds (w n wd : Z) :
  0 <= n -> 0 <= w < 2 ^ wd -> 0 <= Z.land w (Z.lnot (2 ^ n)) < 2 ^ wd.
Proof.
  intros Hn [Hw0 Hw]. split; [apply Z.land_nonneg; now left|].
  destruct (Z.lt_ge_cases (Z.land w (Z.lnot (2 ^ n))) (2 ^ wd)) as [|Hge]; [assumption|].
  exfalso.
  assert (Hwd : 0 <= wd).
  { destruct (Z.lt_ge_cases wd 0); [|assumption]. rewrite Z.pow_neg_r in Hw; lia. }
  assert (H0 : 0 <= Z.land w (Z.lnot (2 ^ n))) by (apply Z.land_nonneg; now left).
  assert (Hpos : 0 < Z.land w (Z.lnot (2 ^ n)))
    by (pose proof (Z.pow_pos_nonneg 2 wd); lia).
  pose proof (Z.log2_le_pow2 _ wd Hpos) as [Hlog _]. specialize (Hlog Hge).
  pose proof (Z.bit_log2 _ Hpos) as Hbit.
  rewrite Z.land_spec in Hbit. apply andb_true_iff in Hbit as [Hbit _].
  pose proof (testbit_true_ge w _ Hw0 (Z.log2_nonneg _) Hbit) as H1.
  pose proof (Z.pow_le_mono_r 2 wd (Z.log2 (Z.land w (Z.lnot (2 ^ n))))). lia.
Qed.

Lemma set_bit_bounds (w n wd : Z) :
  0 <= n < wd -> 0 <= w < 2 ^ wd -> 0 <= Z.lor w (2 ^ n) < 2 ^ wd.
Proof.
  intros Hn [Hw0 Hw].
  assert (Hm : 0 < 2 ^ n) by (apply Z.pow_pos_nonneg; lia).
  assert (H0 : 0 <= Z.lor w (2 ^ n)) by (apply Z.lor_nonneg; lia).
  split; [assumption|].
  assert (Hpos : 0 < Z.lor w (2 ^ n)).
  { pose proof (testbit_true_ge _ n H0 (proj1 Hn) (testbit_set w n (proj1 Hn))). lia. }
  apply Z.log2_lt_pow2; [assumption|].
  rewrite Z.log2_lor, Z.log2_pow2 by lia.
  apply Z.max_lub_lt; [|lia].
  destruct (Z.eq_dec w 0) as [->|]; [cbn; lia|].
  apply Z.log2_lt_pow2; lia.
Qed.

(** X13. Pixel operations keep the field widths and, within the width, the
    validity of the model: on a valid config, inside the geometry and with
    the column word present, [enable_pixel] leaves a valid config;
    [disable_pixel] leaves a valid config exactly when bit [row+1] lies
    inside the width of the column word (a row beyond the width makes the
    word too large for its field). *)
Theorem pixel_ops_and_validity (self : Asic) (cfg : ChipConfig) (b : Block) (f : Field)
        (col row : Z) :
  asic_config self = Some cfg -> valid_config cfg = true ->
  dict_get "recconfig" cfg = Some b -> dict_get (col_key col) b = Some f ->
  0 <= row < _num_rows self -> col < _num_cols self ->
  (exists cfg1,
     asic_config (snd (enable_pixel col row self)) = Some cfg1
     /\ field_widths cfg1 = field_widths cfg
     /\ valid_config cfg1 = true)
  /\ (exists cfg2,
        asic_config (snd (disable_pixel col row self)) = Some cfg2
        /\ field_widths cfg2 = field_widths cfg
        /\ valid_config cfg2 = (row + 1 <? width f)).
Proof.
  intros Hcfg Hval Hb Hk Hr Hc.
  assert (Hw : column_word col self = Some (value f)).
  { unfold column_word, recconfig. now rewrite Hcfg, Hb, Hk. }
  rewrite (enable_pixel_ok col row _ self Hr Hc Hw).
  rewrite (disable_pixel_ok col row _ self Hr Hc Hw). cbn [snd].
  unfold assign_value. rewrite Hcfg. cbn [asic_config with_config].
  assert (Hvb : valid_block b = true).
  { clear -Hval Hb. unfold valid_config in Hval.
    induction cfg as [|[k' b'] cfg IH]; [discriminate|].
    cbn [forallb snd dict_get] in *. apply andb_true_iff in Hval as [H1 H2].
    destruct (String.eqb "recconfig" k'); [now injection Hb as <- | now apply IH]. }
  assert (Hvf : valid_field f = true).
  { clear -Hvb Hk. unfold valid_block in Hvb.
    induction b as [|[k' f'] b IH]; [discriminate|].
    cbn [forallb snd dict_get] in *. apply andb_true_iff in Hvb as [H1 H2].
    destruct (String.eqb (col_key col) k'); [now injection Hk as <- | now apply IH]. }
  apply valid_field_spec in Hvf as [Hwd Hv].
  assert (Hfield : forall v, 0 <= v < 2 ^ width f -> valid_field (set_value v f) = true).
  { intros v [Hv0 Hv1]. unfold valid_field, set_value. cbn [width value].
    now rewrite (proj2 (Z.ltb_lt _ _) Hwd), (proj2 (Z.leb_le _ _) Hv0),
      (proj2 (Z.ltb_lt _ _) Hv1). }
  assert (Hgood : forall v, 0 <= v < 2 ^ width f ->
            valid_config (dict_adjust (dict_adjust (set_value v) (col_key col))
                                      "recconfig" cfg) = true).
  { intros v Hvv. unfold valid_config.
    apply (forallb_dict_adjust valid_block); [exact Hval|].
    intros b0 Hb0. rewrite Hb in Hb0. injection Hb0 as <-. unfold valid_block.
    apply (forallb_dict_adjust valid_field); [exact Hvb|].
    intros f0 Hf0. rewrite Hk in Hf0. injection Hf0 as <-. now apply Hfield. }
  split.
  - eexists. split; [reflexivity|]. split; [apply field_widths_assign|].
    apply Hgood. apply clear_bit_bounds; lia.
  - eexists. split; [reflexivity|]. split; [apply field_widths_assign|].
    destruct (Z.ltb_spec (row + 1) (width f)) as [Hin|Hout].
    + apply Hgood. apply set_bit_bounds; lia.
    + unfold valid_config.
      apply (forallb_dict_adjust_false valid_block _ _ _ b Hb). unfold valid_block.
      apply (forallb_dict_adjust_false valid_field _ _ _ f Hk).
      unfold valid_field, set_value. cbn [width value].
      assert (H0 : 0 <= Z.lor (value f) (2 ^ (row + 1))).
      { apply Z.lor_nonneg. split; [lia | apply Z.pow_nonneg; lia]. }
      pose proof (testbit_true_ge _ (row + 1) H0 ltac:(lia)
                    (testbit_set (value f) (row + 1) ltac:(lia))) as Hge.
      pose proof (Z.pow_le_mono_r 2 (width f) (row + 1) ltac:(lia) Hout).
      destruct (Z.ltb_spec (Z.lor (value f) (2 ^ (row + 1))) (2 ^ width f)); [lia|].
      apply andb_false_r.
Qed.

Lemma pixel_ops_and_validity_witness :
  (exists cfg1,
     asic_config (snd (enable_pixel 3 0 fixture_asic)) = Some cfg1
     /\ field_widths cfg1 = field_widths fixture_config
     /\ valid_config cfg1 = true)
  /\ (exists cfg2,
        asic_config (snd (disable_pixel 3 0 fixture_asic)) = Some cfg2
        /\ field_widths cfg2 = field_widths fixture_config
        /\ valid_config cfg2 = (0 + 1 <? width (mkField 38 RECCONFIG_DEFAULT))).
Proof.
  apply (pixel_ops_and_validity fixture_asic fixture_config (fixture_recconfig 35)
           (mkField 38 RECCONFIG_DEFAULT) 3 0);
    try reflexivity; cbn; lia.
Defined.

(** ** [hits_present] *)

Lemma int_from_bytes_acc (bs : list Byte.byte) (acc : Z) :
  0 <= acc ->
  (fold_left (fun a b => 256 * a + Z.of_N (Byte.to_N b)) bs acc =? 0)
  = (acc =? 0) && forallb is_zero_byte bs.
Proof.
  revert acc. induction bs as [|b bs IH]; intros acc Hacc.
  - cbn. now rewrite andb_true_r.
  - cbn [fold_left forallb]. pose proof (N2Z.is_nonneg (Byte.to_N b)) as Hb.
    rewrite IH by lia. rewrite andb_assoc. f_equal. unfold is_zero_byte.
    destruct (Z.eqb_spec acc 0) as [->|Hne], (N.eqb_spec (Byte.to_N b) 0) as [E|E];
      cbn [andb].
    + rewrite E. reflexivity.
    + apply Z.eqb_neq. lia.
    + apply Z.eqb_neq. lia.
    + apply Z.eqb_neq. lia.
Qed.

(** X14. [hits_present] reads register 70 once and answers true exactly
    when every byte read is zero, in particular when no byte at all comes
    back; an exception of the read passes through. *)
Theorem hits_present_iff_all_zero
        (board : list nexys_call -> nexys_call -> outcome (list Byte.byte))
        (self : astropixRun) :
  fst (hits_present board self)
  = match board (nexys self) (read_register 70) with
    | Returns bs => Returns (forallb is_zero_byte bs)
    | Raises e => Raises e
    end
  /\ nexys (snd (hits_present board self)) = read_register 70 :: nexys self.
Proof.
  unfold hits_present, bind, nexys_do.
  destruct (board (nexys self) (read_register 70)) as [bs|e]; [|split; reflexivity].
  unfold int_from_bytes_big. rewrite int_from_bytes_acc by lia. cbn [andb Z.eqb].
  destruct (forallb is_zero_byte bs); split; reflexivity.
Qed.

(** ** [load_conf_from_yaml] *)

(** X15. [load_conf_from_yaml] never raises on a parsed document: each half
    ends in a bare [except].  The config is replaced exactly when the
    document holds one for the chip version and is otherwise kept as it was;
    the output and the geometry fields aside, nothing else changes, and two
    lines are logged, one per half. *)
Theorem load_conf_from_yaml_config (chipversion : Z) (dict_from_yml : dict chip_entry)
        (self : Asic) :
  exists s',
    load_conf_from_yaml chipversion dict_from_yml self = (Returns tt, s')
    /\ asic_config s'
       = match yml_config (chip_key chipversion) dict_from_yml with
         | Returns c => Some c
         | Raises _ => asic_config self
         end
    /\ stdout s' = stdout self
    /\ exists l1 l2, logger s' = l2 :: l1 :: logger self
       /\ fst l1 = match yml_config (chip_key chipversion) dict_from_yml with
                   | Returns _ => INFO
                   | Raises _ => ERROR
                   end.
Proof.
  unfold load_conf_from_yaml, try_except, bind, lift_outcome, modify, asic_log.
  destruct (yml_config (chip_key chipversion) dict_from_yml) as [c|e];
    destruct (yml_geometry (chip_key chipversion) "cols" dict_from_yml) as [cols|e1];
    destruct (yml_geometry (chip_key chipversion) "rows" dict_from_yml) as [rows|e2];
    cbn; eexists; (split; [reflexivity|]); cbn;
    (split; [reflexivity|]); (split; [reflexivity|]);
    eexists; eexists; split; reflexivity.
Qed.

(** X16. The geometry half of [load_conf_from_yaml] assigns [num_cols]
    before it looks up the row count: a document with both sets both, a
    document with [cols] but without [rows] changes [num_cols] alone, and
    one without [cols] changes neither. *)
Theorem load_conf_from_yaml_geometry (chipversion : Z) (dict_from_yml : dict chip_entry)
        (self : Asic) :
  let s' := snd (load_conf_from_yaml chipversion dict_from_yml self) in
  _num_cols s'
  = match yml_geometry (chip_key chipversion) "cols" dict_from_yml with
    | Returns cols => cols
    | Raises _ => _num_cols self
    end
  /\ _num_rows s'
     = match yml_geometry (chip_key chipversion) "cols" dict_from_yml,
             yml_geometry (chip_key chipversion) "rows" dict_from_yml with
       | Returns _, Returns rows => rows
       | _, _ => _num_rows self
       end.
Proof.
  unfold load_conf_from_yaml, try_except, bind, lift_outcome, modify, asic_log.
  destruct (yml_config (chip_key chipversion) dict_from_yml) as [c|e];
    destruct (yml_geometry (chip_key chipversion) "cols" dict_from_yml) as [cols|e1];
    destruct (yml_geometry (chip_key chipversion) "rows" dict_from_yml) as [rows|e2];
    cbn; split; reflexivity.
Qed.

(** The two halves at work: the fixture document sets config and geometry;
    the document without a row count leaves 16 columns and the 35 rows of
    before. *)
Lemma load_conf_from_yaml_examples :
  asic_config (snd (load_conf_from_yaml 2 fixture_yml Asic_init)) = Some fixture_config
  /\ _num_cols (snd (load_conf_from_yaml 2 fixture_yml_no_rows Asic_init)) = 16
  /\ _num_rows (snd (load_conf_from_yaml 2 fixture_yml_no_rows Asic_init)) = 35
  /\ asic_config (snd (load_conf_from_yaml 3 fixture_yml fixture_asic)) = Some fixture_config
  /\ map fst (logger (snd (load_conf_from_yaml 3 fixture_yml fixture_asic))) = [ERROR; ERROR].
Proof. repeat split. Qed.

(** ** Writing overrides into a block *)

Lemma store_value_present (blk k : string) (v : Z) (a : Asic) (cfg : ChipConfig)
      (b : Block) (f : Field) :
  asic_config a = Some cfg -> dict_get blk cfg = Some b -> dict_get k b = Some f ->
  store_value blk k v a = (Returns tt, assign_value blk k v a).
Proof.
  intros Hcfg Hb Hk. unfold store_value, bind, config_block, lift_outcome, subscript, modify.
  now rewrite Hcfg, Hb, Hk.
Qed.

Lemma store_value_absent (blk k : string) (v : Z) (a : Asic) (cfg : ChipConfig) (b : Block) :
  asic_config a = Some cfg -> dict_get blk cfg = Some b -> dict_get k b = None ->
  store_value blk k v a = (Raises (KeyError k), a).
Proof.
  intros Hcfg Hb Hk. unfold store_value, bind, config_block, lift_outcome, subscript.
  now rewrite Hcfg, Hb, Hk.
Qed.

Lemma config_value_assign (blk blk' k k' : string) (v : Z) (a : Asic) :
  config_value blk' k' (assign_value blk k v a)
  = if String.eqb blk' blk && String.eqb k' k
    then option_map (fun _ => v) (config_value blk' k' a)
    else config_value blk' k' a.
Proof.
  unfold config_value, assign_value.
  destruct (asic_config a) as [cfg|] eqn:E; [|rewrite E; now destruct (_ && _)].
  cbn [asic_config with_config].
  destruct (String.eqb_spec blk' blk) as [->|Hb]; cbn [andb].
  - rewrite dict_get_adjust_same. destruct (dict_get blk cfg) as [b|]; cbn [option_map].
    + destruct (String.eqb_spec k' k) as [->|Hk].
      * rewrite dict_get_adjust_same. now destruct (dict_get k b).
      * now rewrite dict_get_adjust_other.
    + now destruct (String.eqb k' k).
  - now rewrite dict_get_adjust_other.
Qed.

Lemma dict_get_app {V} (k : string) (d1 d2 : dict V) :
  dict_get k (d1 ++ d2)
  = match dict_get k d1 with Some v => Some v | None => dict_get k d2 end.
Proof.
  induction d1 as [|[k' v] d1 IH]; [reflexivity|].
  cbn [app dict_get]. now destruct (String.eqb k k').
Qed.

Lemma first_absent_cons (k : string) (v : Z) (d : dict Z) (b : Block) :
  first_absent ((k, v) :: d) b
  = if dict_mem k b then first_absent d b else Some k.
Proof. unfold first_absent. cbn [find fst]. now destruct (dict_mem k b). Qed.

Lemma dict_mem_adjust {V} (g : V -> V) (k k' : string) (d : dict V) :
  dict_mem k' (dict_adjust g k d) = dict_mem k' d.
Proof.
  unfold dict_mem. destruct (String.eqb_spec k' k) as [->|Hne].
  - rewrite dict_get_adjust_same. now destruct (dict_get k d).
  - now rewrite dict_get_adjust_other.
Qed.

Lemma first_absent_adjust (g : Field -> Field) (k : string) (d : dict Z) (b : Block) :
  first_absent d (dict_adjust g k b) = first_absent d b.
Proof.
  induction d as [|[k' v'] d IH]; [reflexivity|].
  now rewrite !first_absent_cons, dict_mem_adjust, IH.
Qed.

Lemma written_prefix_adjust (g : Field -> Field) (k : string) (d : dict Z) (b : Block) :
  written_prefix d (dict_adjust g k b) = written_prefix d b.
Proof.
  induction d as [|[k' v'] d IH]; [reflexivity|].
  cbn [written_prefix]. now rewrite dict_mem_adjust, IH.
Qed.

Lemma block_of_assign (blk blk' k : string) (v : Z) (a : Asic) :
  block_of blk' (assign_value blk k v a)
  = if String.eqb blk' blk then option_map (dict_adjust (set_value v) k) (block_of blk' a)
    else block_of blk' a.
Proof.
  unfold block_of, assign_value.
  destruct (asic_config a) as [cfg|] eqn:E; [|rewrite E; now destruct (String.eqb blk' blk)].
  cbn [asic_config with_config].
  destruct (String.eqb_spec blk' blk) as [->|Hne].
  - apply dict_get_adjust_same.
  - now apply dict_get_adjust_other.
Qed.

Lemma store_value_block (blk k : string) (v : Z) (a : Asic) (b : Block) :
  block_of blk a = Some b ->
  store_value blk k v a
  = if dict_mem k b then (Returns tt, assign_value blk k v a)
    else (Raises (KeyError k), a).
Proof.
  unfold block_of, dict_mem. destruct (asic_config a) as [cfg|] eqn:E; [|discriminate].
  intros Hb. destruct (dict_get k b) as [f|] eqn:Hk.
  - eapply store_value_present; eassumption.
  - eapply store_value_absent; eassumption.
Qed.

(** The loop [for key in d: block[key][1] = d[key]] on the [Asic] object: it
    stops with [KeyError] at the first key the block does not hold, the
    entries before it being written; keys stay, other blocks stay. *)
Lemma store_loop (blk : string) (d : dict Z) (a : Asic) (b : Block) :
  block_of blk a = Some b ->
  exists a' b',
    for_each d (fun kv => store_value blk (fst kv) (snd kv)) a
    = (match first_absent d b with Some k => Raises (KeyError k) | None => Returns tt end, a')
    /\ block_of blk a' = Some b'
    /\ (forall k, dict_mem k b' = dict_mem k b)
    /\ (forall blk', blk' <> blk -> block_of blk' a' = block_of blk' a)
    /\ (forall k, option_map value (dict_get k b')
                  = overridden (written_prefix d b) k (option_map value (dict_get k b))).
Proof.
  unfold for_each. revert a b. induction d as [|[k0 v0] d IH]; intros a b Hb.
  - exists a, b. cbn. repeat split; try assumption.
    intros k. unfold overridden. now destruct (option_map value (dict_get k b)).
  - cbn [foldM fst snd written_prefix]. rewrite first_absent_cons.
    unfold bind at 1. rewrite (store_value_block blk k0 v0 a b Hb).
    destruct (dict_mem k0 b) eqn:Hmem.
    + set (a1 := assign_value blk k0 v0 a).
      set (b1 := dict_adjust (set_value v0) k0 b).
      assert (Hb1 : block_of blk a1 = Some b1).
      { unfold a1. now rewrite block_of_assign, String.eqb_refl, Hb. }
      destruct (IH a1 b1 Hb1) as (a' & b' & Hrun & Hb' & Hmem' & Hframe & Hval).
      exists a', b'. unfold b1 in Hrun. rewrite first_absent_adjust in Hrun.
      split; [exact Hrun|]. split; [exact Hb'|].
      split; [intros k; rewrite Hmem'; apply dict_mem_adjust|].
      split.
      * intros blk' Hne. rewrite (Hframe blk' Hne). unfold a1.
        rewrite block_of_assign.
        destruct (String.eqb_spec blk' blk); [contradiction | reflexivity].
      * intros k. rewrite Hval. unfold b1. rewrite written_prefix_adjust.
        unfold overridden. cbn [rev]. rewrite dict_get_app. cbn [dict_get].
        unfold dict_mem in Hmem.
        destruct (String.eqb_spec k k0) as [->|Hne].
        -- rewrite dict_get_adjust_same.
           destruct (dict_get k0 b) as [f|]; [|discriminate]. cbn [option_map set_value value].
           now destruct (dict_get k0 (rev (written_prefix d b))).
        -- rewrite dict_get_adjust_other by assumption.
           destruct (option_map value (dict_get k b));
             now destruct (dict_get k (rev (written_prefix d b))).
    + exists a, b. repeat split; try assumption.
      intros k. unfold overridden. now destruct (option_map value (dict_get k b)).
Qed.

Lemma config_value_block (blk k : string) (a : Asic) :
  config_value blk k a
  = match block_of blk a with
    | Some b => option_map value (dict_get k b)
    | None => None
    end.
Proof. unfold config_value, block_of. now destruct (asic_config a). Qed.

Lemma set_asic_same (self : astropixRun) (a : Asic) :
  asic self = Some a -> set_asic (Some a) self = self.
Proof. destruct self. cbn. now intros ->. Qed.

(** A loop of calls on [self.asic] is the loop on the [Asic] object. *)
Lemma on_asic_for_each {A} (l : list A) (body : A -> M Asic unit)
      (self : astropixRun) (a : Asic) :
  asic self = Some a ->
  for_each l (fun x => on_asic (body x)) self
  = (fst (for_each l body a), set_asic (Some (snd (for_each l body a))) self).
Proof.
  unfold for_each. revert self a. induction l as [|x l IH]; intros self a Ha.
  - cbn. now rewrite set_asic_same.
  - cbn [foldM]. unfold bind. unfold on_asic at 1. rewrite Ha.
    destruct (body x a) as [[[]|e] a1]; [|reflexivity].
    cbv beta iota.
    rewrite (IH (set_asic (Some a1) self) a1 eq_refl). reflexivity.
Qed.

Lemma written_prefix_all (d : dict Z) (b : Block) :
  first_absent d b = None -> written_prefix d b = d.
Proof.
  induction d as [|[k v] d IH]; [reflexivity|].
  rewrite first_absent_cons. cbn [written_prefix].
  destruct (dict_mem k b); [intros H; now rewrite IH | discriminate].
Qed.

Lemma run_value_set_asic (blk k : string) (self : astropixRun) (a : Asic) :
  run_value blk k (set_asic (Some a) self) = config_value blk k a.
Proof. reflexivity. Qed.

Section OverrideFacts.

Variable append_None : BitArray -> outcome BitArray.
Variable board : list nexys_call -> nexys_call -> outcome (list Byte.byte).

(** One mapping written through [self.asic]. *)
Lemma write_overrides_run (blk : string) (cfg : option (dict Z)) (self : astropixRun)
      (a : Asic) (b : Block) :
  asic self = Some a -> block_of blk a = Some b ->
  exists a' b',
    write_overrides blk cfg self
    = (match first_absent (entries cfg) b with
       | Some k => Raises (KeyError k)
       | None => Returns tt
       end, set_asic (Some a') self)
    /\ block_of blk a' = Some b'
    /\ (forall blk', blk' <> blk -> block_of blk' a' = block_of blk' a)
    /\ (forall k, config_value blk k a'
                  = overridden (written_prefix (entries cfg) b) k (config_value blk k a)).
Proof.
  intros Ha Hb.
  destruct (store_loop blk (entries cfg) a b Hb) as (a' & b' & Hrun & Hb' & _ & Hframe & Hval).
  exists a', b'. split; [|split; [exact Hb'|split; [exact Hframe|]]].
  - destruct cfg as [d|]; cbn [write_overrides entries] in *.
    + rewrite (on_asic_for_each d _ self a Ha), Hrun. reflexivity.
    + cbn in Hrun. injection Hrun as <-. now rewrite set_asic_same.
  - intros k. now rewrite !config_value_block, Hb, Hb', Hval.
Qed.

(** X17. After initialization, [update_asic_config] without a voltage-DAC
    mapping and with every given key present in its block returns after
    writing: each bias and current-DAC key holds the value given for it, no
    other field changes, the "got no arguments" line is logged and nothing
    is sent to the board. *)
Theorem update_asic_config_writes_without_push
        (bias_cfg idac_cfg : option (dict Z)) (self : astropixRun) (a : Asic)
        (bb bi : Block) :
  _asic_start self = true -> asic self = Some a ->
  block_of "biasconfig" a = Some bb -> block_of "idacs" a = Some bi ->
  first_absent (entries bias_cfg) bb = None ->
  first_absent (entries idac_cfg) bi = None ->
  exists self',
    update_asic_config append_None board bias_cfg idac_cfg None self = (Returns tt, self')
    /\ nexys self' = nexys self
    /\ run_log self'
       = (INFO, "update_asic_config() got no arguments, nothing to do.") :: run_log self
    /\ (forall k, run_value "biasconfig" k self'
                  = overridden (entries bias_cfg) k (run_value "biasconfig" k self))
    /\ (forall k, run_value "idacs" k self'
                  = overridden (entries idac_cfg) k (run_value "idacs" k self))
    /\ (forall blk k, blk <> "biasconfig" -> blk <> "idacs" ->
          run_value blk k self' = run_value blk k self).
Proof.
  intros Hstart Ha Hbb Hbi Hab Hai.
  destruct (write_overrides_run "biasconfig" bias_cfg self a bb Ha Hbb)
    as (a1 & bb1 & Hrun1 & Hbb1 & Hframe1 & Hval1).
  rewrite Hab in Hrun1. rewrite (written_prefix_all _ _ Hab) in Hval1.
  assert (Hbi1 : block_of "idacs" a1 = Some bi) by (rewrite Hframe1; [assumption | discriminate]).
  destruct (write_overrides_run "idacs" idac_cfg (set_asic (Some a1) self) a1 bi eq_refl Hbi1)
    as (a2 & bi2 & Hrun2 & Hbi2 & Hframe2 & Hval2).
  rewrite Hai in Hrun2. rewrite (written_prefix_all _ _ Hai) in Hval2.
  eexists. split.
  { unfold update_asic_config. unfold bind at 1, gets. rewrite Hstart.
    erewrite bind_returns by exact Hrun1.
    erewrite bind_returns by exact Hrun2.
    reflexivity. }
  cbn [nexys run_log set_asic asic _asic_start]. split; [reflexivity|]. split; [reflexivity|].
  unfold run_value. cbn [asic set_asic]. rewrite Ha.
  split; [|split].
  - intros k. rewrite !config_value_block, Hframe2 by discriminate.
    rewrite <- !config_value_block. apply Hval1.
  - intros k. rewrite Hval2. f_equal.
    rewrite !config_value_block, Hframe1 by discriminate. reflexivity.
  - intros blk k H1 H2.
    now rewrite !config_value_block, Hframe2, Hframe1 by assumption.
Qed.

(** X18. After initialization, a bias key that the bias block does not hold
    makes [update_asic_config] raise [KeyError] for the first such key: the
    entries given before it are already written, the other blocks are not
    touched, and nothing is sent to the board. *)
Theorem update_asic_config_unknown_key
        (bias_cfg idac_cfg vdac_cfg : option (dict Z)) (self : astropixRun) (a : Asic)
        (bb : Block) (k : string) :
  _asic_start self = true -> asic self = Some a ->
  block_of "biasconfig" a = Some bb ->
  first_absent (entries bias_cfg) bb = Some k ->
  exists self',
    update_asic_config append_None board bias_cfg idac_cfg vdac_cfg self
    = (Raises (KeyError k), self')
    /\ nexys self' = nexys self
    /\ run_log self' = run_log self
    /\ (forall k', run_value "biasconfig" k' self'
                   = overridden (written_prefix (entries bias_cfg) bb) k'
                                (run_value "biasconfig" k' self))
    /\ (forall blk k', blk <> "biasconfig" ->
          run_value blk k' self' = run_value blk k' self).
Proof.
  intros Hstart Ha Hbb Hab.
  destruct (write_overrides_run "biasconfig" bias_cfg self a bb Ha Hbb)
    as (a1 & bb1 & Hrun1 & Hbb1 & Hframe1 & Hval1).
  rewrite Hab in Hrun1.
  eexists. split.
  { unfold update_asic_config. unfold bind at 1, gets. rewrite Hstart.
    erewrite bind_raises by exact Hrun1. reflexivity. }
  cbn [nexys run_log set_asic asic]. split; [reflexivity|]. split; [reflexivity|].
  unfold run_value. cbn [asic set_asic]. rewrite Ha. split.
  - exact Hval1.
  - intros blk k' Hne. now rewrite !config_value_block, Hframe1.
Qed.

End OverrideFacts.

Lemma update_asic_config_writes_without_push_witness :
  exists self',
    update_asic_config append_None_raises (board_reading Byte.x55)
                       (Some [("qon1", 0)]) (Some [("blres", 10); ("vn1", 30)]) None fixture_run
    = (Returns tt, self')
    /\ nexys self' = nexys fixture_run
    /\ run_log self'
       = (INFO, "update_asic_config() got no arguments, nothing to do.") :: run_log fixture_run
    /\ (forall k, run_value "biasconfig" k self'
                  = overridden [("qon1", 0)] k (run_value "biasconfig" k fixture_run))
    /\ (forall k, run_value "idacs" k self'
                  = overridden [("blres", 10); ("vn1", 30)] k (run_value "idacs" k fixture_run))
    /\ (forall blk k, blk <> "biasconfig" -> blk <> "idacs" ->
          run_value blk k self' = run_value blk k fixture_run).
Proof.
  apply (update_asic_config_writes_without_push append_None_raises (board_reading Byte.x55)
           (Some [("qon1", 0)]) (Some [("blres", 10); ("vn1", 30)]) fixture_run fixture_asic
           [ ("DisHiDR", mkField 1 0); ("qon1", mkField 1 1) ]
           [ ("blres", mkField 6 0); ("vn1", mkField 6 20); ("vnfb", mkField 6 1) ]);
    reflexivity.
Defined.

Lemma update_asic_config_unknown_key_witness :
  exists self',
    update_asic_config append_None_raises (board_reading Byte.x55)
                       (Some [("qon1", 0); ("nope", 1); ("DisHiDR", 1)]) None
                       (Some [("thpix", 600)]) fixture_run
    = (Raises (KeyError "nope"), self')
    /\ nexys self' = nexys fixture_run
    /\ run_log self' = run_log fixture_run
    /\ (forall k', run_value "biasconfig" k' self'
                   = overridden (written_prefix [("qon1", 0); ("nope", 1); ("DisHiDR", 1)]
                                   [ ("DisHiDR", mkField 1 0); ("qon1", mkField 1 1) ]) k'
                                (run_value "biasconfig" k' fixture_run))
    /\ (forall blk k', blk <> "biasconfig" ->
          run_value blk k' self' = run_value blk k' fixture_run).
Proof.
  apply (update_asic_config_unknown_key append_None_raises (board_reading Byte.x55)
           (Some [("qon1", 0); ("nope", 1); ("DisHiDR", 1)]) None (Some [("thpix", 600)])
           fixture_run fixture_asic [ ("DisHiDR", mkField 1 0); ("qon1", mkField 1 1) ] "nope");
    reflexivity.
Defined.

(** ** Sorting the DAC overrides in [asic_init] *)

Lemma on_asic_block (blk : string) (self : astropixRun) (a : Asic) (b : Block) :
  asic self = Some a -> block_of blk a = Some b ->
  on_asic (config_block blk) self = (Returns b, self).
Proof.
  intros Ha Hb. unfold on_asic, config_block, block_of in *. rewrite Ha.
  destruct (asic_config a) as [cfg|]; [|discriminate].
  unfold subscript. rewrite Hb. now rewrite set_asic_same.
Qed.

Lemma on_asic_block_missing (blk : string) (self : astropixRun) (a : Asic) (cfg : ChipConfig) :
  asic self = Some a -> asic_config a = Some cfg -> dict_get blk cfg = None ->
  on_asic (config_block blk) self = (Raises (KeyError blk), self).
Proof.
  intros Ha Hcfg Hb. unfold on_asic, config_block. rewrite Ha, Hcfg.
  unfold subscript. rewrite Hb. now rewrite set_asic_same.
Qed.

Lemma find_app {A} (P : A -> bool) (l1 l2 : list A) :
  find P (l1 ++ l2) = match find P l1 with Some x => Some x | None => find P l2 end.
Proof.
  induction l1 as [|x l1 IH]; [reflexivity|].
  cbn [app find]. now destruct (P x).
Qed.

Lemma last_of_group_cons (P : string -> bool) (k : string) (v : Z) (d : dict Z)
      (acc : option (dict Z)) :
  last_of_group P ((k, v) :: d) acc
  = last_of_group P d (if P k then Some [(k, v)] else acc).
Proof.
  unfold last_of_group. cbn [rev]. rewrite find_app. cbn [find fst].
  destruct (find (fun kv => P (fst kv)) (rev d)); [reflexivity|].
  now destruct (P k).
Qed.

Lemma sort_dac_loop_keeps_last (whole keys : dict Z) (idac_setup vdac_setup : option (dict Z))
      (self : astropixRun) (a : Asic) (bi bv : Block) :
  asic self = Some a ->
  block_of "idacs" a = Some bi -> block_of "vdacs" a = Some bv ->
  forallb (fun kv => dict_mem (fst kv) bi || dict_mem (fst kv) bv) keys = true ->
  sort_dac_loop whole keys idac_setup vdac_setup self
  = (Returns (Some (last_of_group (fun k => dict_mem k bi) keys idac_setup,
                    last_of_group (fun k => negb (dict_mem k bi) && dict_mem k bv)
                                  keys vdac_setup)),
     self).
Proof.
  intros Ha Hbi Hbv. revert idac_setup vdac_setup.
  induction keys as [|[k v] d IH]; intros idac_setup vdac_setup Hall; [reflexivity|].
  cbn [forallb fst] in Hall. apply andb_true_iff in Hall as [Hk Hd].
  cbn [sort_dac_loop]. rewrite !last_of_group_cons.
  erewrite bind_returns by (eapply on_asic_block; eassumption).
  destruct (dict_mem k bi) eqn:Hi; cbn [negb andb].
  - now apply IH.
  - erewrite bind_returns by (eapply on_asic_block; eassumption).
    cbn [orb] in Hk. rewrite Hk. now apply IH.
Qed.

(** X19. When every key of [dac_setup] is a current DAC or a voltage DAC,
    the sorting loop of [asic_init] changes nothing and hands on, for each
    group, a mapping that holds the single entry classified last into it
    (or what the group variable held when no key went there): the earlier
    entries of a group are not kept. *)
Theorem sort_dac_setup_keeps_last (dac_setup : dict Z) (idac_setup vdac_setup : option (dict Z))
        (self : astropixRun) (a : Asic) (bi bv : Block) :
  asic self = Some a ->
  block_of "idacs" a = Some bi -> block_of "vdacs" a = Some bv ->
  forallb (fun kv => dict_mem (fst kv) bi || dict_mem (fst kv) bv) dac_setup = true ->
  sort_dac_setup dac_setup idac_setup vdac_setup self
  = (Returns (Some (last_of_group (fun k => dict_mem k bi) dac_setup idac_setup,
                    last_of_group (fun k => negb (dict_mem k bi) && dict_mem k bv)
                                  dac_setup vdac_setup)),
     self).
Proof.
  intros Ha Hbi Hbv Hall. unfold sort_dac_setup.
  now apply (sort_dac_loop_keeps_last dac_setup dac_setup _ _ self a bi bv).
Qed.

Lemma sort_dac_setup_keeps_last_witness :
  sort_dac_setup [("blres", 10); ("thpix", 600); ("vn1", 30); ("blpix", 500)] None None
                 fixture_run
  = (Returns (Some (Some [("vn1", 30)], Some [("blpix", 500)])), fixture_run).
Proof.
  apply (sort_dac_setup_keeps_last
           [("blres", 10); ("thpix", 600); ("vn1", 30); ("blpix", 500)] None None
           fixture_run fixture_asic
           [ ("blres", mkField 6 0); ("vn1", mkField 6 20); ("vnfb", mkField 6 1) ]
           [ ("blpix", mkField 10 568); ("thpix", mkField 10 610) ]);
    reflexivity.
Defined.

Lemma sort_dac_loop_bad_key (whole keys : dict Z) (idac_setup vdac_setup : option (dict Z))
      (self : astropixRun) (a : Asic) (bi bv : Block) :
  asic self = Some a ->
  block_of "idacs" a = Some bi -> block_of "vdacs" a = Some bv ->
  existsb (fun kv => negb (dict_mem (fst kv) bi) && negb (dict_mem (fst kv) bv)) keys
  = true ->
  sort_dac_loop whole keys idac_setup vdac_setup self
  = (Returns None, snd (log WARNING (bad_dac_msg whole) self)).
Proof.
  intros Ha Hbi Hbv. revert idac_setup vdac_setup.
  induction keys as [|[k v] d IH]; intros idac_setup vdac_setup Hex; [discriminate|].
  cbn [existsb fst] in Hex. cbn [sort_dac_loop].
  erewrite bind_returns by (eapply on_asic_block; eassumption).
  destruct (dict_mem k bi) eqn:Hi; cbn [negb andb orb] in Hex; [now apply IH|].
  erewrite bind_returns by (eapply on_asic_block; eassumption).
  destruct (dict_mem k bv) eqn:Hv; cbn [negb orb] in Hex; [now apply IH|].
  reflexivity.
Qed.

Lemma sort_dac_loop_no_vdacs (whole keys : dict Z) (idac_setup vdac_setup : option (dict Z))
      (self : astropixRun) (a : Asic) (cfg : ChipConfig) (bi : Block) :
  asic self = Some a -> asic_config a = Some cfg ->
  dict_get "idacs" cfg = Some bi -> dict_get "vdacs" cfg = None ->
  existsb (fun kv => negb (dict_mem (fst kv) bi)) keys = true ->
  sort_dac_loop whole keys idac_setup vdac_setup self = (Raises (KeyError "vdacs"), self).
Proof.
  intros Ha Hcfg Hbi Hbv. revert idac_setup vdac_setup.
  assert (Hbi' : block_of "idacs" a = Some bi) by (unfold block_of; now rewrite Hcfg).
  induction keys as [|[k v] d IH]; intros idac_setup vdac_setup Hex; [discriminate|].
  cbn [existsb fst] in Hex. cbn [sort_dac_loop].
  erewrite bind_returns by (eapply on_asic_block; eassumption).
  destruct (dict_mem k bi) eqn:Hi; cbn [negb orb] in Hex; [now apply IH|].
  erewrite bind_raises by (eapply on_asic_block_missing; eassumption). reflexivity.
Qed.

Section AsicInitFacts.

Variable append_None : BitArray -> outcome BitArray.
Variable board : list nexys_call -> nexys_call -> outcome (list Byte.byte).

(** X20. When [dac_setup] holds a key that is neither a current DAC nor a
    voltage DAC, [asic_init] logs the warning, which shows the whole
    [dac_setup], and returns there and then: the session is marked as started
    and holds the loaded object unchanged (no DAC value and no bias value
    written), and nothing has been sent to the chip. *)
Theorem asic_init_bad_dac_key (loaded : Asic) (dac_setup : dict Z)
        (bias_setup : option (dict Z)) (analog_col : option Z) (self : astropixRun)
        (bi bv : Block) :
  block_of "idacs" loaded = Some bi -> block_of "vdacs" loaded = Some bv ->
  existsb (fun kv => negb (dict_mem (fst kv) bi) && negb (dict_mem (fst kv) bv)) dac_setup
  = true ->
  exists self',
    asic_init append_None board loaded (Some dac_setup) bias_setup analog_col self
    = (Returns tt, self')
    /\ _asic_start self' = true
    /\ asic self' = Some loaded
    /\ nexys self' = nexys self
    /\ run_log self' = (WARNING, bad_dac_msg dac_setup) :: run_log self.
Proof.
  intros Hbi Hbv Hex. eexists. split.
  - unfold asic_init. unfold bind at 1, modify at 1. unfold bind at 1, modify at 1.
    destruct dac_setup as [|kv rest]; [discriminate|].
    erewrite bind_returns; cycle 1.
    { unfold sort_dac_setup.
      eapply (sort_dac_loop_bad_key (kv :: rest) (kv :: rest) None None _ loaded bi bv);
        [reflexivity | assumption | assumption | assumption]. }
    reflexivity.
  - repeat split.
Qed.

(** X21. On a loaded config that has no [vdacs] block, a [dac_setup] key
    that is not a current DAC makes [asic_init] raise [KeyError] for
    [vdacs] instead of logging the warning; nothing has been written or
    sent. *)
Theorem asic_init_without_vdacs (loaded : Asic) (cfg : ChipConfig) (dac_setup : dict Z)
        (bias_setup : option (dict Z)) (analog_col : option Z) (self : astropixRun)
        (bi : Block) :
  asic_config loaded = Some cfg ->
  dict_get "idacs" cfg = Some bi -> dict_get "vdacs" cfg = None ->
  existsb (fun kv => negb (dict_mem (fst kv) bi)) dac_setup = true ->
  exists self',
    asic_init append_None board loaded (Some dac_setup) bias_setup analog_col self
    = (Raises (KeyError "vdacs"), self')
    /\ asic self' = Some loaded
    /\ nexys self' = nexys self
    /\ run_log self' = run_log self.
Proof.
  intros Hcfg Hbi Hbv Hex. eexists. split.
  - unfold asic_init. unfold bind at 1, modify at 1. unfold bind at 1, modify at 1.
    destruct dac_setup as [|kv rest]; [discriminate|].
    erewrite bind_raises; cycle 1.
    { unfold sort_dac_setup.
      eapply (sort_dac_loop_no_vdacs (kv :: rest) (kv :: rest) None None _ loaded cfg bi);
        [reflexivity | assumption | assumption | assumption | assumption]. }
    reflexivity.
  - repeat split.
Qed.

End AsicInitFacts.

Lemma asic_init_bad_dac_key_witness :
  exists self',
    asic_init append_None_raises (board_reading Byte.x55) fixture_asic
              (Some [("vn1", 30); ("nope", 1)]) (Some [("qon1", 0)]) (Some 3) fixture_opened
    = (Returns tt, self')
    /\ _asic_start self' = true
    /\ asic self' = Some fixture_asic
    /\ nexys self' = nexys fixture_opened
    /\ run_log self'
       = (WARNING,
          "Sent bad DAC value {'vn1': 30, 'nope': 1} - not a DAC setting. Aborting DAC update")
         :: run_log fixture_opened.
Proof.
  apply (asic_init_bad_dac_key append_None_raises (board_reading Byte.x55) fixture_asic
           [("vn1", 30); ("nope", 1)] (Some [("qon1", 0)]) (Some 3) fixture_opened
           [ ("blres", mkField 6 0); ("vn1", mkField 6 20); ("vnfb", mkField 6 1) ]
           [ ("blpix", mkField 10 568); ("thpix", mkField 10 610) ]);
    reflexivity.
Defined.

Lemma asic_init_without_vdacs_witness :
  exists self',
    asic_init append_None_raises (board_reading Byte.x55) fixture_unfit
              (Some [("blres", 10); ("thpix", 600)]) None None fixture_opened
    = (Raises (KeyError "vdacs"), self')
    /\ asic self' = Some fixture_unfit
    /\ nexys self' = nexys fixture_opened
    /\ run_log self' = run_log fixture_opened.
Proof.
  apply (asic_init_without_vdacs append_None_raises (board_reading Byte.x55) fixture_unfit
           [ ("biasconfig", [ ("DisHiDR", mkField 1 0); ("qon1", mkField 1 2) ]);
             ("idacs", [ ("blres", mkField 6 5) ]) ]
           [("blres", 10); ("thpix", 600)] None None fixture_opened
           [ ("blres", mkField 6 5) ]);
    reflexivity.
Defined.
